(** * Git-Summarizer: the repository analyzer and the provider selection

    A shallow embedding of [src/git_summarizer/git/analyzer.py] and of
    [Config.get_active_provider] from [src/git_summarizer/config.py].

    Python [str] values are modelled by [string]; one [ascii] stands for one
    code point below 256.  On that range the whitespace class of [str.strip]
    and the decimal class of the [\d] escape are the finite sets written out
    in [isspace] and [isdecimal], and the white space that [int] skips is
    the smaller set [int_isspace].  [int] raises [ValueError] on a text that
    is not a literal and, past 640 digits, on more digits than the limit of
    the interpreter, which is a parameter of the functions that convert. *)

From Stdlib Require Import String Ascii List ZArith Lia Bool DecimalString
  DecimalZ.
Import ListNotations.
Open Scope string_scope.
Set Warnings "-abstract-large-number".

(** ** Python string primitives *)

Module Py.

(** [str.isspace] on one code point: TAB..CR, FS..US, SPACE, NEL, NBSP. *)
Definition isspace (c : ascii) : bool :=
  let n := nat_of_ascii c in
  ((9 <=? n)%nat && (n <=? 13)%nat) || ((28 <=? n)%nat && (n <=? 32)%nat)
  || (n =? 133)%nat || (n =? 160)%nat.

(** The class [\d] of the [re] module on one code point. *)
Definition isdecimal (c : ascii) : bool :=
  let n := nat_of_ascii c in (48 <=? n)%nat && (n <=? 57)%nat.

Definition nl : ascii := "010"%char.
Definition NUL : ascii := "000"%char.
Definition SOH : ascii := "001"%char.
Definition bar : ascii := "|"%char.
Definition space : ascii := " "%char.

(** [chr c] is the one-character string. *)
Definition chr (c : ascii) : string := String c "".

(** Truth value of a string and of a list: non-empty. *)
Definition truthy (s : string) : bool :=
  match s with "" => false | String _ _ => true end.

Definition nonempty {A : Type} (l : list A) : bool :=
  match l with [] => false | _ :: _ => true end.

(** [s.lstrip()] *)
Fixpoint lstrip (s : string) : string :=
  match s with
  | "" => ""
  | String c s' => if isspace c then lstrip s' else s
  end.

(** [s.rstrip()] *)
Fixpoint rstrip (s : string) : string :=
  match s with
  | "" => ""
  | String c s' =>
      match rstrip s' with
      | "" => if isspace c then "" else chr c
      | r => String c r
      end
  end.

(** [s.strip()] *)
Definition strip (s : string) : string := rstrip (lstrip s).

(** [s.split(sep)] for a separator of one character.  The result is never
    empty: [''.split(sep)] is [['']]. *)
Fixpoint split (sep : ascii) (s : string) : list string :=
  match s with
  | "" => [""]
  | String c s' =>
      if Ascii.eqb c sep then "" :: split sep s'
      else match split sep s' with
           | l :: ls => String c l :: ls
           | [] => [chr c]
           end
  end.

(** [sub in s] *)
Fixpoint str_in (sub s : string) : bool :=
  prefix sub s ||
  match s with
  | "" => false
  | String _ s' => str_in sub s'
  end.

(** [s[:n]] and [s[n:]] for a literal [n >= 0]. *)
Fixpoint take (n : nat) (s : string) : string :=
  match n, s with
  | S n', String c s' => String c (take n' s')
  | _, _ => ""
  end.

Fixpoint drop (n : nat) (s : string) : string :=
  match n, s with
  | S n', String _ s' => drop n' s'
  | _, _ => s
  end.

(** [s[:n]] for an integer [n] of either sign: a negative bound counts from
    the end, and both are clamped to the string. *)
Definition slice_to (n : Z) (s : string) : string :=
  if (n <? 0)%Z then take (Z.to_nat (Z.of_nat (String.length s) + n)) s
  else take (Z.to_nat n) s.

(** [s.replace(a, b, 1)] for one-character [a] and [b]. *)
Fixpoint replace_first (a b : ascii) (s : string) : string :=
  match s with
  | "" => ""
  | String c s' =>
      if Ascii.eqb c a then String b s' else String c (replace_first a b s')
  end.

(** [s.replace(a, '')] for a one-character [a]. *)
Fixpoint remove_all (a : ascii) (s : string) : string :=
  match s with
  | "" => ""
  | String c s' =>
      if Ascii.eqb c a then remove_all a s' else String c (remove_all a s')
  end.

(** The number a string of decimal digits writes. *)
Definition digit_value (c : ascii) : Z := (Z.of_nat (nat_of_ascii c) - 48)%Z.

Fixpoint int_acc (acc : Z) (s : string) : Z :=
  match s with
  | "" => acc
  | String c s' => int_acc (10 * acc + digit_value c)%Z s'
  end.

Definition int (s : string) : Z := int_acc 0 s.

(** Every character of [s] satisfies [p]; some character of [s] is [c]. *)
Fixpoint all_chars (p : ascii -> bool) (s : string) : bool :=
  match s with
  | "" => true
  | String c s' => p c && all_chars p s'
  end.

Definition allws (s : string) : bool := all_chars isspace s.

Definition has_char (c : ascii) (s : string) : bool :=
  negb (all_chars (fun d => negb (Ascii.eqb d c)) s).

(** No character of [s] is a decimal digit. *)
Definition no_digit (s : string) : bool :=
  all_chars (fun c => negb (isdecimal c)) s.

(** The part of [s] before the first [c] (all of [s] when there is none). *)
Fixpoint before (c : ascii) (s : string) : string :=
  match s with
  | "" => ""
  | String d s' => if Ascii.eqb d c then "" else String d (before c s')
  end.

(** The last character of [s], if any. *)
Fixpoint last_char (s : string) : option ascii :=
  match s with
  | "" => None
  | String c "" => Some c
  | String _ s' => last_char s'
  end.

Definition ends_with_digit (s : string) : bool :=
  match last_char s with
  | Some c => isdecimal c
  | None => false
  end.

(** [rstrip] applied to the last string of a list. *)
Fixpoint rstrip_last (l : list string) : list string :=
  match l with
  | [] => []
  | [x] => [rstrip x]
  | x :: xs => x :: rstrip_last xs
  end.

(** What [strip] does to the fields of a joined record: the first loses its
    leading white space and the last its trailing white space. *)
Definition trim_ends (l : list string) : list string :=
  match l with
  | [] => []
  | [x] => [strip x]
  | x :: xs => lstrip x :: rstrip_last xs
  end.

(** [n] copies of [c]. *)
Fixpoint replicate (n : nat) (c : ascii) : string :=
  match n with
  | O => ""
  | S n' => String c (replicate n' c)
  end.

(** [str(n)] as used by an f-string on an integer. *)
Definition str_of_int (n : Z) : string := NilEmpty.string_of_int (Z.to_int n).

(** White space as [int] skips it at the two ends of a text: TAB..CR and
    SPACE, and NEL and NBSP, which [int] reads as spaces.  FS..US, which
    [str.strip] removes, are not skipped. *)
Definition int_isspace (c : ascii) : bool :=
  let n := nat_of_ascii c in
  ((9 <=? n)%nat && (n <=? 13)%nat) || (n =? 32)%nat
  || (n =? 133)%nat || (n =? 160)%nat.

Fixpoint int_lstrip (s : string) : string :=
  match s with
  | "" => ""
  | String c s' => if int_isspace c then int_lstrip s' else s
  end.

Fixpoint int_rstrip (s : string) : string :=
  match s with
  | "" => ""
  | String c s' =>
      match int_rstrip s' with
      | "" => if int_isspace c then "" else chr c
      | r => String c r
      end
  end.

(** The digits of an integer literal: groups of decimal digits separated by
    single underscores, returned without the underscores; [after_digit]
    tells whether the previous character was a digit. *)
Fixpoint digit_groups (after_digit : bool) (s : string) : option string :=
  match s with
  | "" => if after_digit then Some "" else None
  | String c s' =>
      if isdecimal c then option_map (String c) (digit_groups true s')
      else if Ascii.eqb c "_" && after_digit then digit_groups false s'
      else None
  end.

(** What [int(s)] gives: a number, or one of its two [ValueError]s. *)
Inductive int_outcome : Type :=
| IntOk (n : Z)
| InvalidLiteral
| DigitLimit.

(** [int(s)] on any text.  The white space at the two ends is skipped, an
    optional sign is read, and the rest must be digit groups.
    [max_str_digits] is the interpreter's limit on the number of digits
    ([sys.get_int_max_str_digits()]; 0, or an interpreter older than the
    limit, means none), which is only looked at past 640 digits. *)
Definition int_str (max_str_digits : nat) (s : string) : int_outcome :=
  let t := int_rstrip (int_lstrip s) in
  let '(negative, digits) :=
    match t with
    | String c r =>
        if Ascii.eqb c "-" then (true, r)
        else if Ascii.eqb c "+" then (false, r)
        else (false, t)
    | "" => (false, t)
    end in
  match digit_groups false digits with
  | None => InvalidLiteral
  | Some ds =>
      if (640 <? String.length ds)%nat && (0 <? max_str_digits)%nat
         && (max_str_digits <? String.length ds)%nat
      then DigitLimit
      else IntOk (if negative then (- int ds)%Z else int ds)
  end.

End Py.

(** ** The two regular expressions of [_parse_diff_stats]

    A backtracking matcher for the constructs the patterns
    [(\d+) insertions?\(\+\)] and [(\d+) deletions?\(-\)] are made of: the
    capture group [(\d+)], literal text, and an optional literal.  Every
    quantifier is greedy and gives characters back on failure, and
    [search] tries the start positions from left to right, as [re.search]
    does. *)

Module Re.
Import Py.

Inductive atom : Type :=
| Lit (text : string)
| Opt (text : string)
| Digits1.

Definition pattern : Type := list atom.

(** What follows [p] in [s], when [s] starts with [p]. *)
Fixpoint after_prefix (p s : string) : option string :=
  match p, s with
  | "", _ => Some s
  | String a p', String b s' =>
      if Ascii.eqb a b then after_prefix p' s' else None
  | String _ _, "" => None
  end.

(** [\d+] followed by the continuation [k]: one digit at least, the longest
    run first, then shorter ones. [acc] holds the digits taken so far. *)
Fixpoint digits_plus (k : string -> string -> option string)
  (acc s : string) : option string :=
  match s with
  | "" => None
  | String c s' =>
      if isdecimal c then
        match digits_plus k (acc ++ chr c) s' with
        | Some g => Some g
        | None => k (acc ++ chr c) s'
        end
      else None
  end.

(** Match [p] at the start of [s]; the result is the text of group 1. *)
Fixpoint match_here (p : pattern) (s : string) (group1 : string)
  : option string :=
  match p with
  | [] => Some group1
  | Lit l :: p' =>
      match after_prefix l s with
      | Some rest => match_here p' rest group1
      | None => None
      end
  | Opt l :: p' =>
      match after_prefix l s with
      | Some rest =>
          match match_here p' rest group1 with
          | Some g => Some g
          | None => match_here p' s group1
          end
      | None => match_here p' s group1
      end
  | Digits1 :: p' => digits_plus (fun g rest => match_here p' rest g) "" s
  end.

(** [re.search(p, s)], reduced to [group(1)] of the match. *)
Fixpoint search (p : pattern) (s : string) : option string :=
  match match_here p s "" with
  | Some g => Some g
  | None =>
      match s with
      | "" => None
      | String _ s' => search p s'
      end
  end.

Definition insertions_re : pattern :=
  [Digits1; Lit " insertion"; Opt "s"; Lit "(+)"].

Definition deletions_re : pattern :=
  [Digits1; Lit " deletion"; Opt "s"; Lit "(-)"].

End Re.

(** ** [git/analyzer.py] *)

Module Analyzer.
Import Py.

Inductive exn : Type :=
| RuntimeError (msg : string)
| IndexError
| ValueError (msg : string).

Inductive result (A : Type) : Type :=
| Ok (a : A)
| Raise (e : exn).

Arguments Ok {A} a.
Arguments Raise {A} e.

Definition bind {A B : Type} (m : result A) (k : A -> result B) : result B :=
  match m with
  | Ok a => k a
  | Raise e => Raise e
  end.

Notation "x <- m ;; k" := (bind m (fun x => k))
  (at level 61, m at next level, right associativity).

(** The two [ValueError]s of [int]; their messages, which quote the text and
    the limit, are shortened. *)
Definition int_error : exn := ValueError "invalid literal for int()".

Definition digits_error : exn :=
  ValueError "Exceeds the limit for integer string conversion".

(** [int(s)] in the error monad. *)
Definition int_of (max_str_digits : nat) (s : string) : result Z :=
  match int_str max_str_digits s with
  | IntOk n => Ok n
  | InvalidLiteral => Raise int_error
  | DigitLimit => Raise digits_error
  end.

(** A monadic left fold: the shape of a [for] loop whose body may raise. *)
Fixpoint foldM {A S : Type} (body : S -> A -> result S) (l : list A) (s : S)
  : result S :=
  match l with
  | [] => Ok s
  | a :: l' => s' <- body s a ;; foldM body l' s'
  end.

(** [s[i]]: the one-character string at index [i], or [IndexError]. *)
Definition char_at (s : string) (i : nat) : result string :=
  match String.get i s with
  | Some c => Ok (chr c)
  | None => Raise IndexError
  end.

(** What [subprocess.run(..., check=False)] hands back. *)
Record CompletedProcess : Type := {
  returncode : Z;
  stdout : string;
  stderr : string
}.

Inductive spawned : Type :=
| FileNotFoundError
| Completed (p : CompletedProcess).

(** The operating system seen from the analyzer: the outcome of running an
    argument vector in the repository directory. *)
Definition subprocess : Type := list string -> spawned.

Record DiffSummary : Type := {
  files : list string;
  total_additions : Z;
  total_deletions : Z;
  raw_diff : string
}.

Record RepoStatus : Type := {
  staged : list string;
  modified : list string;
  untracked : list string;
  is_dirty : bool;
  branch : string
}.

Definition _run_git (run : subprocess) (args : list string) : result string :=
  match run ("git" :: args) with
  | FileNotFoundError =>
      Raise (RuntimeError "Git is not installed or not in PATH")
  | Completed p =>
      if negb (returncode p =? 0)%Z && truthy (stderr p) then
        if str_in "fatal:" (stderr p) then
          Raise (RuntimeError ("Git error: " ++ strip (stderr p)))
        else Ok (stdout p)
      else Ok (stdout p)
  end.

Definition get_current_branch (run : subprocess) : result string :=
  out <- _run_git run ["branch"; "--show-current"] ;;
  Ok (strip out).

(** The body of the loop of [get_repo_status] on one line; the state is the
    three lists being built. *)
Definition status_line (acc : list string * list string * list string)
  (line : string) : result (list string * list string * list string) :=
  let '(staged, modified, untracked) := acc in
  if negb (truthy line) then Ok acc
  else
    let code := take 2 line in
    let filename := drop 3 line in
    c0 <- char_at code 0 ;;
    let staged :=
      if str_in c0 "MADRC" then (staged ++ [filename])%list else staged in
    c1 <- char_at code 1 ;;
    let modified :=
      if String.eqb c1 "M" then (modified ++ [filename])%list else modified in
    let untracked :=
      if String.eqb code "??" then (untracked ++ [filename])%list
      else untracked in
    Ok (staged, modified, untracked).

Definition get_repo_status (run : subprocess) : result RepoStatus :=
  status_output <- _run_git run ["status"; "--porcelain"] ;;
  acc <- foldM status_line (split nl (strip status_output)) ([], [], []) ;;
  let '(staged, modified, untracked) := acc in
  b <- get_current_branch run ;;
  Ok {| staged := staged;
        modified := modified;
        untracked := untracked;
        is_dirty := nonempty (if nonempty staged then staged else modified);
        branch := b |}.

(** The body of the first loop of [_parse_diff_stats] on one line. *)
Definition stat_line (files : list string) (line : string) : list string :=
  if str_in (chr bar) line
  then (files ++ [strip (hd "" (split bar line))])%list
  else files.

Definition truncation_marker : string :=
  String nl (String nl "... (truncated)").

Section Diff.

(** The interpreter's limit on the digits [int] converts. *)
Variable max_str_digits : nat.

(** The conversion of a count may raise; the files are collected before it
    and the diff text is cut after it. *)
Definition _parse_diff_stats (raw_diff stat_output : string)
  (max_chars : option Z) : result DiffSummary :=
  let files := fold_left stat_line (split nl (strip stat_output)) [] in
  additions <-
    match Re.search Re.insertions_re stat_output with
    | Some g => int_of max_str_digits g
    | None => Ok 0%Z
    end ;;
  deletions <-
    match Re.search Re.deletions_re stat_output with
    | Some g => int_of max_str_digits g
    | None => Ok 0%Z
    end ;;
  let diff_text :=
    match max_chars with
    | Some n =>
        if negb (n =? 0)%Z && (Z.of_nat (String.length raw_diff) >? n)%Z
        then slice_to n raw_diff ++ truncation_marker
        else raw_diff
    | None => raw_diff
    end in
  Ok {| files := files;
        total_additions := additions;
        total_deletions := deletions;
        raw_diff := diff_text |}.

Definition get_uncommitted_diff (run : subprocess) (max_chars : option Z)
  : result DiffSummary :=
  raw <- _run_git run ["diff"; "HEAD"] ;;
  stat_output <- _run_git run ["diff"; "--stat"; "HEAD"] ;;
  _parse_diff_stats raw stat_output max_chars.

Definition get_staged_diff (run : subprocess) (max_chars : option Z)
  : result DiffSummary :=
  raw <- _run_git run ["diff"; "--cached"] ;;
  stat_output <- _run_git run ["diff"; "--stat"; "--cached"] ;;
  _parse_diff_stats raw stat_output max_chars.

End Diff.

Section Commits.

(** [datetime] values, [datetime.fromisoformat] ([None] stands for its
    [ValueError]) and the wall clock: [now k] is what the [k]-th call of
    [datetime.now()] made by one query returns. *)
Variable datetime : Type.
Variable fromisoformat : string -> option datetime.
Variable now : nat -> datetime.

Record CommitInfo : Type := {
  hash : string;
  author : string;
  email : string;
  date : datetime;
  subject : string;
  body : string;
  files_changed : Z;
  insertions : Z;
  deletions : Z
}.

Definition format_str : string :=
  "%H%x00%an%x00%ae%x00%ad%x00%s%x00%b%x00%x01".

Definition log_args (days : Z) : list string :=
  ["log";
   "--since=" ++ str_of_int days ++ " days ago";
   "--pretty=format:" ++ format_str;
   "--date=iso"].

(** The [try] block of [get_recent_commits]: the date of a record and the
    number of clock readings made so far. *)
Definition commit_date (parts : list string) (ticks : nat) : datetime * nat :=
  let date_str := strip (nth 3 parts "") in
  match fromisoformat (remove_all space (replace_first space "T" date_str)) with
  | Some d => (d, ticks)
  | None => (now ticks, S ticks)
  end.

(** The body of the loop of [get_recent_commits] on one entry; the state is
    the list being built and the number of clock readings. *)
Definition commit_entry (st : list CommitInfo * nat) (entry : string)
  : list CommitInfo * nat :=
  let '(commits, ticks) := st in
  let entry := strip entry in
  if negb (truthy entry) then st
  else
    let parts := split NUL entry in
    if (5 <=? List.length parts)%nat then
      let '(d, ticks') := commit_date parts ticks in
      ((commits ++ [ {| hash := nth 0 parts "";
                        author := nth 1 parts "";
                        email := nth 2 parts "";
                        date := d;
                        subject := nth 4 parts "";
                        body := if (5 <? List.length parts)%nat
                                then nth 5 parts "" else "";
                        files_changed := 0;
                        insertions := 0;
                        deletions := 0 |} ])%list, ticks')
    else st.

Definition get_recent_commits (run : subprocess) (days : Z)
  : result (list CommitInfo) :=
  output <- _run_git run (log_args days) ;;
  if negb (truthy (strip output)) then Ok []
  else Ok (fst (fold_left commit_entry (split SOH output) ([], 0%nat))).

End Commits.

Arguments hash {datetime} c.
Arguments author {datetime} c.
Arguments email {datetime} c.
Arguments date {datetime} c.
Arguments subject {datetime} c.
Arguments body {datetime} c.

End Analyzer.

(** ** [config.py] *)

Module Config.
Import Py.
Import Analyzer.

Inductive LLMProvider : Type :=
| GEMINI
| OPENROUTER.

Record Config : Type := {
  gemini_api_key : string;
  openrouter_api_key : string;
  default_days : Z;
  max_diff_chars : Z;
  gemini_model : string;
  openrouter_model : string;
  preferred_provider : string;
  slack_webhook_url : string
}.

(** The text of the [ValueError]; the bullet of each item is written [*]. *)
Definition no_provider_message : string :=
  "No LLM API key configured. Please set one of:" ++ chr nl ++
  "  * OPENROUTER_API_KEY (get free at https://openrouter.ai/keys) [RECOMMENDED]"
  ++ chr nl ++
  "  * GEMINI_API_KEY (get at https://aistudio.google.com/apikey)".

Definition get_active_provider (self : Config) : result LLMProvider :=
  if String.eqb (preferred_provider self) "gemini"
     && truthy (gemini_api_key self)
  then Ok GEMINI
  else if String.eqb (preferred_provider self) "openrouter"
          && truthy (openrouter_api_key self)
  then Ok OPENROUTER
  else if String.eqb (preferred_provider self) "auto" then
    if truthy (openrouter_api_key self) then Ok OPENROUTER
    else if truthy (gemini_api_key self) then Ok GEMINI
    else Raise (ValueError no_provider_message)
  else Raise (ValueError no_provider_message).

Definition validate (self : Config) : result unit :=
  _ <- get_active_provider self ;; Ok tt.

End Config.

(** ** Vocabulary of the statements *)

Module Spec.
Import Py.
Import Re.
Import Analyzer.

(** [sub] occurs in [s]. *)
Definition contains_text (sub s : string) : Prop :=
  exists pre post, s = pre ++ sub ++ post.

(** [sub] is an integer followed by [word], an optional [s] and [sign]:
    the shape [<integer> insertion(s)(+)]. *)
Definition count_phrase (word sign sub : string) : Prop :=
  exists ds, ds <> "" /\ all_chars isdecimal ds = true /\
             (sub = ds ++ word ++ sign \/ sub = ds ++ word ++ "s" ++ sign).

(** Some substring of [s] satisfies [P]. *)
Definition occurs (P : string -> Prop) (s : string) : Prop :=
  exists pre sub post, s = pre ++ sub ++ post /\ P sub.

Definition count_re (word sign : string) : pattern :=
  [Digits1; Lit word; Opt "s"; Lit sign].

(** [int] converts a count of the digits [g]: they are at most 640, or the
    interpreter has no limit, or they are within its limit. *)
Definition fits (max_str_digits : nat) (g : string) : Prop :=
  (String.length g <= 640)%nat \/ max_str_digits = 0%nat \/
  (String.length g <= max_str_digits)%nat.

(** [int] converts the counts that the two patterns find in [stat], if they
    find any. *)
Definition counts_fit (max_str_digits : nat) (stat : string) : Prop :=
  (forall g, search insertions_re stat = Some g -> fits max_str_digits g) /\
  (forall g, search deletions_re stat = Some g -> fits max_str_digits g).

(** What one line of the summary contributes to [files]. *)
Definition stat_item (line : string) : list string :=
  if str_in (chr bar) line then [strip (hd "" (split bar line))] else [].

(** A summary as [git diff --stat] prints it for two changed files. *)
Definition two_file_summary : string :=
  " src/app.py  | 10 ++++++++++" ++ chr nl ++
  " src/util.py |  3 ---" ++ chr nl ++
  " 2 files changed, 10 insertions(+), 3 deletions(-)" ++ chr nl.

(** A status line that reports an untracked path, or a blank line. *)
Definition untracked_line (l : string) : Prop :=
  l = "" \/ exists p, l = "??" ++ p.

(** The classification of status lines by their two-character code: the
    index column is one of [M], [A], [D], [R], [C]; the working-tree column
    is [M]; the code is [??].  The path of a line is what follows the code
    and one separator. *)
Definition index_changed (l : string) : bool :=
  match String.get 0 l with
  | Some c => has_char c "MADRC"
  | None => false
  end.

Definition tree_modified (l : string) : bool :=
  match String.get 1 l with
  | Some c => Ascii.eqb c "M"
  | None => false
  end.

Definition is_untracked (l : string) : bool := String.eqb (take 2 l) "??".

Definition path_of (l : string) : string := drop 3 l.

(** A fragment of the log has five fields or more. *)
Definition has_five_fields (e : string) : bool :=
  (5 <=? List.length (split NUL e))%nat.

(** The log text made of the fragments [frags], each a list of fields. *)
Definition log_text (frags : list (list string)) : string :=
  String.concat (chr SOH) (map (String.concat (chr NUL)) frags).

(** A field holds neither sentinel. *)
Definition clean_field (f : string) : Prop :=
  has_char NUL f = false /\ has_char SOH f = false.

(** The hash, author, email and subject a fragment with the fields [fr]
    parses to, if it parses to a record: the fields as the code returns
    them. *)
Definition expected_fields (fr : list string)
  : list (string * string * string * string) :=
  if (5 <=? List.length fr)%nat
  then [(lstrip (nth 0 fr ""), nth 1 fr "", nth 2 fr "",
         if (List.length fr =? 5)%nat then rstrip (nth 4 fr "")
         else nth 4 fr "")]
  else [].

(** The same with the four fields taken exactly as they stand in the input:
    the reading of the specification. *)
Definition exact_fields (fr : list string)
  : list (string * string * string * string) :=
  if (5 <=? List.length fr)%nat
  then [(nth 0 fr "", nth 1 fr "", nth 2 fr "", nth 4 fr "")]
  else [].

(** A process that exits with status 0 and prints [status] for
    [git status --porcelain] and [other] for every other command. *)
Definition git_prints (status other : string) : subprocess :=
  fun argv =>
    Completed {| returncode := 0;
                 stdout := if list_eq_dec string_dec argv
                                ["git"; "status"; "--porcelain"]
                           then status else other;
                 stderr := "" |}.

Section Commits.
Variable datetime : Type.
Variable fromisoformat : string -> option datetime.
Variable now : nat -> datetime.

(** The record the loop body builds from the fields [parts]. *)
Definition record_of (parts : list string) (d : datetime)
  : CommitInfo datetime :=
  {| hash := nth 0 parts "";
     author := nth 1 parts "";
     email := nth 2 parts "";
     date := d;
     subject := nth 4 parts "";
     body := if (5 <? List.length parts)%nat then nth 5 parts "" else "";
     files_changed := 0;
     insertions := 0;
     deletions := 0 |}.

(** The text handed to [fromisoformat] for the fields [parts]. *)
Definition iso_text (parts : list string) : string :=
  remove_all space (replace_first space "T" (strip (nth 3 parts ""))).

(** [c] is the record of entry [e]: its text fields are the fields of the
    stripped entry, and its date is the parsed date, or a clock reading when
    the date does not parse. *)
Definition entry_record (e : string) (c : CommitInfo datetime) : Prop :=
  let parts := split NUL (strip e) in
  c = record_of parts (date c) /\
  match fromisoformat (iso_text parts) with
  | Some d => date c = d
  | None => exists k, date c = now k
  end.

Definition summary (c : CommitInfo datetime)
  : string * string * string * string :=
  (hash c, author c, email c, subject c).

End Commits.

Arguments summary {datetime} c.

End Spec.

(** * The rest of the code

    The queries of [git/analyzer.py] that the parsers above do not cover, and
    the callers of the analyzer and of the configuration: the prompt
    templates and the client of [llm/], the Slack sender, and the text that
    [output/formatter.py] and [output/prompts.py] compute before they
    print. *)

(** ** More Python primitives *)

Module PyList.
Import Py.

(** A slice bound [n] on a sequence of length [len]: a negative bound
    counts from the end, and the result is clamped to [0 .. len]. *)
Definition index_of (n : Z) (len : nat) : nat :=
  if (n <? 0)%Z then Z.to_nat (Z.of_nat len + n)
  else Nat.min (Z.to_nat n) len.

(** [l[start:stop]]; [None] is an omitted bound. *)
Definition slice {A : Type} (start stop : option Z) (l : list A) : list A :=
  let len := List.length l in
  let a := match start with Some n => index_of n len | None => 0%nat end in
  let b := match stop with Some n => index_of n len | None => len end in
  firstn (b - a) (skipn a l).

(** [sep.join(l)] *)
Definition join (sep : string) (l : list string) : string :=
  String.concat sep l.

(** [s.startswith(p)] *)
Definition startswith (s p : string) : bool := prefix p s.

(** [not c.isspace()] *)
Definition nonspace (c : ascii) : bool := negb (isspace c).

End PyList.

(** ** [git/analyzer.py], the remaining queries *)

Module Queries.
Import Py.
Import PyList.
Import Analyzer.

Definition get_commit_diff (run : subprocess) (commit_hash : string)
  (max_chars : option Z) : result string :=
  diff <- _run_git run ["show"; commit_hash; "--pretty=format:"; "--patch"] ;;
  match max_chars with
  | Some n =>
      if negb (n =? 0)%Z && (Z.of_nat (String.length diff) >? n)%Z
      then Ok (slice_to n diff ++ truncation_marker)
      else Ok diff
  | None => Ok diff
  end.

Section Count.
Variable max_str_digits : nat.

Definition get_commit_count (run : subprocess) (days : Z) : result Z :=
  output <- _run_git run ["rev-list"; "--count";
                          "--since=" ++ str_of_int days ++ " days ago";
                          "HEAD"] ;;
  if truthy (strip output) then int_of max_str_digits (strip output)
  else Ok 0%Z.

End Count.

Section Activity.
Variable datetime : Type.
Variable fromisoformat : string -> option datetime.

Definition get_last_activity (run : subprocess) : result (option datetime) :=
  output <- _run_git run ["log"; "-1"; "--format=%ai"] ;;
  if negb (truthy (strip output)) then Ok None
  else
    let date_str := strip output in
    Ok (fromisoformat (remove_all space (replace_first space "T" date_str))).

End Activity.

End Queries.

(** ** [llm/prompts.py]

    Each template is the list of its lines, joined by line feeds. *)

Module Prompts.
Import Py.
Import PyList.

(** The local [file_list] of [status_summary]: at most twenty files, one to
    a line, and the number of the files left out. *)
Definition file_list (files : list string) : string :=
  let listed :=
    join (chr nl) (map (fun f => "  - " ++ f) (slice None (Some 20%Z) files)) in
  if (20 <? List.length files)%nat
  then listed ++ chr nl ++ "  ... and "
       ++ str_of_int (Z.of_nat (List.length files) - 20) ++ " more files"
  else listed.

Definition status_summary (diff stats : string) (files : list string)
  : string :=
  let file_list := file_list files in
  join (chr nl)
  [ "You are a helpful coding assistant analyzing git changes. ";
    "Analyze the following uncommitted changes and provide a concise, human-readable summary.";
    "";
    "**Changed Files:**";
    file_list;
    "";
    "**Statistics:**";
    stats;
    "";
    "**Diff (may be truncated):**";
    "```diff";
    diff;
    "```";
    "";
    "**Instructions:**";
    "1. Describe WHAT the developer is working on in 2-3 sentences";
    "2. List the key changes as bullet points (max 5 bullets)";
    "3. Note any potential issues or incomplete work if visible";
    "";
    "Format your response as:";
    "## Summary";
    "[2-3 sentence overview]";
    "";
    "## Key Changes";
    "- [change 1]";
    "- [change 2]";
    "...";
    "";
    "## Notes";
    "[Any observations about incomplete work, potential issues, etc. Skip if none.]";
    "" ].

Definition commit_message (diff stats : string) : string :=
  join (chr nl)
  [ "You are a helpful coding assistant. Generate a conventional commit message for these changes.";
    "";
    "**Statistics:**";
    stats;
    "";
    "**Diff:**";
    "```diff";
    diff;
    "```";
    "";
    "**Instructions:**";
    "Generate a commit message following the Conventional Commits format:";
    "- Type: feat, fix, docs, style, refactor, test, chore";
    "- Scope: optional, in parentheses";
    "- Description: imperative mood, lowercase, no period";
    "";
    "Examples:";
    "- feat(auth): add JWT token refresh mechanism";
    "- fix: resolve null pointer in user validation";
    "- docs: update API documentation for v2 endpoints";
    "";
    "Respond with ONLY the commit message, nothing else.";
    "" ].

Definition progress_report (commits_summary : string)
  (total_commits days : Z) : string :=
  join (chr nl)
  [ "You are a helpful coding assistant creating a progress report.";
    "";
    "**Period:** Last " ++ str_of_int days ++ " days";
    "**Total Commits:** " ++ str_of_int total_commits;
    "";
    "**Commit History:**";
    commits_summary;
    "";
    "**Instructions:**";
    "Create a brief, developer-friendly progress report that:";
    "1. Summarizes the main accomplishments in 2-3 sentences";
    "2. Groups related commits into categories/features";
    "3. Highlights any notable patterns (bug fixes, new features, refactoring)";
    "";
    "Format your response as:";
    "";
    "## Progress Summary";
    "[2-3 sentence overview of accomplishments]";
    "";
    "## Work Completed";
    "### [Category 1]";
    "- [accomplishment]";
    "- [accomplishment]";
    "";
    "### [Category 2]";
    "- [accomplishment]";
    "";
    "## Statistics";
    "- Total commits: " ++ str_of_int total_commits;
    "- Period: " ++ str_of_int days ++ " days";
    "" ].

End Prompts.

(** ** [llm/client.py] *)

Module Client.
Import Py.
Import PyList.
Import Analyzer.
Import Config.

(** What [LLMClient.__init__] leaves in the object; [base_url] is set for
    OpenRouter only.  The Gemini SDK object that the constructor also builds
    from the key is not part of the model. *)
Record LLMClient : Type := {
  provider : LLMProvider;
  api_key : string;
  model_name : string;
  base_url : option string
}.

(** [api_key or default] for an optional string. *)
Definition or_else (api_key : option string) (default : string) : string :=
  match api_key with
  | Some k => if truthy k then k else default
  | None => default
  end.

Definition _setup_gemini (config : Config.Config) (api_key : option string)
  : result LLMClient :=
  let key := or_else api_key (gemini_api_key config) in
  if negb (truthy key) then Raise (ValueError "Gemini API key not provided.")
  else Ok {| provider := GEMINI; api_key := key;
             model_name := gemini_model config; base_url := None |}.

Definition _setup_openrouter (config : Config.Config)
  (api_key : option string) : result LLMClient :=
  let key := or_else api_key (openrouter_api_key config) in
  if negb (truthy key)
  then Raise (ValueError "OpenRouter API key not provided.")
  else Ok {| provider := OPENROUTER; api_key := key;
             model_name := openrouter_model config;
             base_url := Some "https://openrouter.ai/api/v1" |}.

(** [LLMClient(api_key, provider)] with the configuration [get_config()]
    returns. *)
Definition __init__ (config : Config.Config) (api_key : option string)
  (provider : option LLMProvider) : result LLMClient :=
  p <- match provider with
       | Some p => Ok p
       | None => get_active_provider config
       end ;;
  match p with
  | GEMINI => _setup_gemini config api_key
  | OPENROUTER => _setup_openrouter config api_key
  end.

Section Generate.

(** [self._generate]: the completion the backend returns for a prompt, or
    the error it raises. *)
Variable _generate : string -> result string.

Definition summarize_changes (diff stats : string) (files : list string)
  : result string :=
  _generate (Prompts.status_summary diff stats files).

Definition suggest_commit_message (diff stats : string) : result string :=
  response <- _generate (Prompts.commit_message diff stats) ;;
  let response := strip response in
  let response :=
    if startswith response "```" then
      let lines := split nl response in
      if (2 <? List.length lines)%nat
      then join (chr nl) (slice (Some 1%Z) (Some (-1)%Z) lines)
      else response
    else response in
  Ok (strip response).

Definition generate_report (commits_summary : string)
  (total_commits days : Z) : result string :=
  _generate (Prompts.progress_report commits_summary total_commits days).

End Generate.

End Client.

(** ** [integrations/slack.py] *)

Module Slack.
Import Py.

Definition _truncate (text : string) (max_length : Z) : string :=
  if (Z.of_nat (String.length text) <=? max_length)%Z then text
  else slice_to (max_length - 3) text ++ "...".

End Slack.

(** ** [output/formatter.py] and [output/prompts.py]

    The text these functions compute; the calls that draw it on the
    terminal are left out. *)

Module Formatter.
Import Py.
Import PyList.
Import Analyzer.

(** [print_diff_preview]: the text of the preview panel, or [None] when the
    diff is blank and nothing is printed. *)
Definition print_diff_preview (diff : string) (max_lines : Z)
  : option string :=
  if negb (truthy (strip diff)) then None
  else
    let lines := slice None (Some max_lines) (split nl diff) in
    let preview := join (chr nl) lines in
    Some (if (Z.of_nat (List.length (split nl diff)) >? max_lines)%Z
          then preview ++ chr nl ++ "... ("
               ++ str_of_int (Z.of_nat (List.length (split nl diff))
                              - max_lines)
               ++ " more lines)"
          else preview).

Section Commits.
Variable datetime : Type.

(** [d.strftime(fmt)] *)
Variable strftime : datetime -> string -> string.

(** What [print_commits_table] and [select_commits] may find in the list
    they are given: an object with a [date] attribute, as a [CommitInfo] is,
    whose date may be [None]; a [dict], where [None] stands for a key that
    is missing (for [date], also for a value that is [None]); or any other
    object, of which they take [str].  The dates are [datetime] objects and
    the other values are texts. *)
Inductive commit_like : Type :=
| Object (date : option datetime) (subject author : string)
| Dict (date : option datetime) (subject author : option string)
| Other (text : string).

(** A [CommitInfo] as the two functions see it. *)
Definition of_commit (c : CommitInfo datetime) : commit_like :=
  Object (Some (Analyzer.date c)) (Analyzer.subject c) (Analyzer.author c).

(** The message cell of [print_commits_table]. *)
Definition subject_display (subject : string) : string :=
  if (50 <? String.length subject)%nat then take 50 subject ++ "..."
  else subject.

(** The body of the loop of [print_commits_table]: the row added for the
    commit numbered [i]. *)
Definition table_row (i : nat) (commit : commit_like)
  : string * string * string * string :=
  let '(date_str, subject, author) :=
    match commit with
    | Object date subject author =>
        (match date with
         | Some d => strftime d "%m/%d"
         | None => "N/A"
         end, subject, author)
    | Dict date subject author =>
        (match date with
         | Some d => strftime d "%m/%d"
         | None => "N/A"
         end,
         match subject with Some s => s | None => "" end,
         match author with Some a => a | None => "unknown" end)
    | Other text => ("N/A", text, "unknown")
    end in
  (str_of_int (Z.of_nat i), date_str, subject_display subject, author).

(** The rows of [enumerate(commits, i)]. *)
Fixpoint commit_rows (i : nat) (commits : list commit_like)
  : list (string * string * string * string) :=
  match commits with
  | [] => []
  | c :: rest => table_row i c :: commit_rows (S i) rest
  end.

(** [print_commits_table]: the rows added to the table, or [None] when there
    is no commit and nothing is printed. *)
Definition print_commits_table (commits : list commit_like)
  : option (list (string * string * string * string)) :=
  if negb (nonempty commits) then None
  else
    let rows := commit_rows 1 (slice None (Some 15%Z) commits) in
    let more :=
      "[dim]... and " ++ str_of_int (Z.of_nat (List.length commits) - 15)
      ++ " more[/]" in
    Some (if (15 <? List.length commits)%nat
          then (rows ++ [("", "", more, "")])%list
          else rows).

(** The body of the loop of [select_commits]: the label of the choice of
    one commit. *)
Definition choice_label (commit : commit_like) : string :=
  let '(date_str, subject) :=
    match commit with
    | Object date subject _ =>
        (match date with
         | Some d => strftime d "%m/%d"
         | None => ""
         end, subject)
    | Dict date subject _ =>
        (match date with
         | Some d => strftime d "%m/%d"
         | None => ""
         end,
         match subject with Some s => s | None => "" end)
    | Other text => ("", text)
    end in
  "[" ++ date_str ++ "] " ++ take 50 subject
  ++ (if (50 <? String.length subject)%nat then "..." else "").

(** The labels of the choices [select_commits] offers, in order; none, and
    no prompt, for an empty list. *)
Definition select_commits_labels (commits : list commit_like) : list string :=
  map choice_label commits.

End Commits.

Arguments Object {datetime} date subject author.
Arguments Dict {datetime} date subject author.
Arguments Other {datetime} text.
Arguments of_commit {datetime} c.
Arguments table_row {datetime} strftime i commit.
Arguments commit_rows {datetime} strftime i commits.
Arguments print_commits_table {datetime} strftime commits.
Arguments choice_label {datetime} strftime commit.
Arguments select_commits_labels {datetime} strftime commits.

End Formatter.

(** ** Vocabulary of the statements on the two displays *)

Module Shown.
Import Py.
Import Formatter.

Section Commits.
Context {datetime : Type}.

(** The date, the subject and the author that the table and the choices
    read from what they are given for a commit; no date is a date that is
    [None] or missing. *)
Definition date_of (c : commit_like datetime) : option datetime :=
  match c with
  | Object d _ _ => d
  | Dict d _ _ => d
  | Other _ => None
  end.

Definition subject_of (c : commit_like datetime) : string :=
  match c with
  | Object _ s _ => s
  | Dict _ (Some s) _ => s
  | Dict _ None _ => ""
  | Other text => text
  end.

Definition author_of (c : commit_like datetime) : string :=
  match c with
  | Object _ _ a => a
  | Dict _ _ (Some a) => a
  | Dict _ _ None => "unknown"
  | Other _ => "unknown"
  end.

End Commits.

End Shown.

(** ** [output/prompts.py], the number of days *)

Module Choices.
Import Py.
Import PyList.
Import Analyzer.
Import Queries.

Section Days.
Variable max_str_digits : nat.

(** The local [validate_days] of [select_days]: the check the text prompt
    runs on what is typed.  On a text, [int] raises nothing but the
    [ValueError] that the check catches. *)
Definition validate_days (val : string) : bool :=
  match int_of max_str_digits val with
  | Ok num => (1 <=? num)%Z && (num <=? 365)%Z
  | Raise _ => false
  end.

(** [select_days], given what the two prompts return: [selected] is the
    value of the entry chosen in the list, [custom] the text typed at the
    prompt that follows the entry [Custom...]. *)
Definition select_days (selected : Z) (custom : string) : result Z :=
  if (selected =? -1)%Z then int_of max_str_digits custom
  else Ok selected.

End Days.

End Choices.

(** * The primitives on sample inputs *)

Module Examples.
Import Py Re Analyzer.

Example strip_both_ends :
  strip (" " ++ chr nl ++ "a b " ++ chr nl) = "a b".
Proof. reflexivity. Qed.

Example split_keeps_empty_lines :
  split nl ("a" ++ chr nl ++ chr nl ++ "b" ++ chr nl) = ["a"; ""; "b"; ""].
Proof. reflexivity. Qed.

Example split_of_empty : split nl "" = [""].
Proof. reflexivity. Qed.

Example str_in_inside : str_in "fatal:" "error: fatal: no HEAD" = true.
Proof. reflexivity. Qed.

Example slice_to_negative : slice_to (-2) "abcdef" = "abcd".
Proof. reflexivity. Qed.

Example slice_to_beyond : slice_to 10 "abc" = "abc".
Proof. reflexivity. Qed.

Example int_leading_zeros : int "0042" = 42%Z.
Proof. reflexivity. Qed.

Example int_signs_and_groups : int_str 4300 " +1_000 " = IntOk 1000%Z.
Proof. reflexivity. Qed.

Example int_skips_nbsp : int_str 4300 (String "160" "12") = IntOk 12%Z.
Proof. reflexivity. Qed.

Example int_keeps_separator :
  int_str 4300 (String "031" "12") = InvalidLiteral /\
  strip (String "031" "12") = "12".
Proof. split; reflexivity. Qed.

Example int_double_underscore : int_str 4300 "1__0" = InvalidLiteral.
Proof. reflexivity. Qed.

Example int_digit_limit :
  int_str 4300 (replicate 4301 "1") = DigitLimit /\
  int_str 4300 (replicate 4301 "x") = InvalidLiteral.
Proof. split; vm_compute; reflexivity. Qed.

Example parse_count_past_limit :
  _parse_diff_stats 4300 "" (replicate 4301 "1" ++ " insertions(+)") None =
  Raise digits_error.
Proof. vm_compute. reflexivity. Qed.

Example iso_date_text :
  remove_all space (replace_first space "T" "2024-05-01 09:00:00 +0200") =
  "2024-05-01T09:00:00+0200".
Proof. reflexivity. Qed.

Example search_plural :
  search insertions_re " 3 files changed, 12 insertions(+), 1 deletion(-)" =
  Some "12".
Proof. reflexivity. Qed.

Example search_singular :
  search deletions_re " 3 files changed, 12 insertions(+), 1 deletion(-)" =
  Some "1".
Proof. reflexivity. Qed.

Example search_leftmost :
  search insertions_re "1 insertion(+) 22 insertions(+)" = Some "1".
Proof. reflexivity. Qed.

Example search_no_match : search insertions_re "12 insertionz(+)" = None.
Proof. reflexivity. Qed.

Example log_args_week :
  log_args 7 =
  ["log"; "--since=7 days ago";
   "--pretty=format:%H%x00%an%x00%ae%x00%ad%x00%s%x00%b%x00%x01";
   "--date=iso"].
Proof. reflexivity. Qed.

End Examples.

(** * Facts about the string primitives *)

Module PyFacts.
Import Py.

Lemma append_empty_r (s : string) : s ++ "" = s.
Proof. induction s as [|c s IH]; simpl; [reflexivity | now rewrite IH]. Qed.

Lemma append_assoc (a b c : string) : (a ++ b) ++ c = a ++ (b ++ c).
Proof. induction a as [|x a IH]; simpl; [reflexivity | now rewrite IH]. Qed.

Lemma length_append (a b : string) :
  String.length (a ++ b) = String.length a + String.length b.
Proof. induction a as [|x a IH]; simpl; [reflexivity | now rewrite IH]. Qed.

Lemma split_not_nil (sep : ascii) (s : string) : split sep s <> [].
Proof.
  destruct s as [|c s]; simpl; [discriminate|].
  destruct (Ascii.eqb c sep); [discriminate|].
  destruct (split sep s); discriminate.
Qed.

Lemma split_cons (sep c : ascii) (s : string) :
  split sep (String c s) =
  if Ascii.eqb c sep then "" :: split sep s
  else String c (hd "" (split sep s)) :: tl (split sep s).
Proof.
  simpl. destruct (Ascii.eqb c sep); [reflexivity|].
  destruct (split sep s) eqn:E; [now apply split_not_nil in E | reflexivity].
Qed.

Lemma split_single_empty (sep : ascii) (s : string) :
  split sep s = [""] -> s = "".
Proof.
  destruct s as [|c s]; [reflexivity|].
  rewrite split_cons. destruct (Ascii.eqb c sep); intros H.
  - injection H as H. now apply split_not_nil in H.
  - discriminate.
Qed.

Lemma rstrip_cons_ne (c : ascii) (s : string) :
  rstrip s <> "" -> rstrip (String c s) = String c (rstrip s).
Proof. simpl. destruct (rstrip s); [congruence | reflexivity]. Qed.

Lemma rstrip_cons_e (c : ascii) (s : string) :
  rstrip s = "" -> rstrip (String c s) = if isspace c then "" else chr c.
Proof. simpl. now intros ->. Qed.

Lemma rstrip_allws (s : string) : allws s = true <-> rstrip s = "".
Proof.
  unfold allws. induction s as [|c s IH]; simpl; [tauto|].
  destruct (rstrip s) eqn:E.
  - destruct (isspace c); simpl; [tauto|]. split; discriminate.
  - split; [|discriminate]. intros H. apply andb_true_iff in H.
    destruct H as [_ H]. apply IH in H. discriminate.
Qed.

Lemma lstrip_allws (s : string) : allws s = true <-> lstrip s = "".
Proof.
  unfold allws. induction s as [|c s IH]; simpl; [tauto|].
  destruct (isspace c); simpl; [exact IH|]. split; discriminate.
Qed.

Lemma allws_split (sep : ascii) (s : string) :
  allws s = true -> Forall (fun l => allws l = true) (split sep s).
Proof.
  unfold allws. induction s as [|c s IH]; simpl.
  - intros _. now constructor.
  - intros H. apply andb_true_iff in H. destruct H as [Hc Hs].
    specialize (IH Hs). destruct (Ascii.eqb c sep).
    + now constructor.
    + destruct (split sep s) as [|l ls]; inversion IH; subst;
        constructor; simpl; auto.
      * now rewrite Hc.
      * now rewrite Hc.
Qed.

Section Lines.
Variable sep : ascii.
Hypothesis sep_space : isspace sep = true.

Lemma not_space_not_sep (c : ascii) : isspace c = false -> Ascii.eqb c sep = false.
Proof.
  intros H. destruct (Ascii.eqb_spec c sep) as [->|]; [congruence | reflexivity].
Qed.

Lemma split_lstrip (s : string) :
  exists pre l post,
    split sep s = (pre ++ l :: post)%list /\
    Forall (fun x => allws x = true) pre /\
    split sep (lstrip s) = lstrip l :: post.
Proof.
  induction s as [|c s IH].
  - exists [], "", []. simpl. repeat split. constructor.
  - destruct IH as (pre & l & post & Hs & Hpre & Hl).
    destruct (isspace c) eqn:Hc.
    + rewrite split_cons. simpl lstrip. rewrite Hc.
      destruct (Ascii.eqb c sep).
      * exists ("" :: pre), l, post. rewrite Hs. repeat split; auto.
      * rewrite Hs. destruct pre as [|p pre].
        -- exists [], (String c l), post. simpl. rewrite Hc. repeat split; auto.
        -- exists (String c p :: pre), l, post. simpl. repeat split; auto.
           inversion Hpre; subst. constructor; auto.
           unfold allws in *. simpl. now rewrite Hc.
    + exists [], (String c (hd "" (split sep s))), (tl (split sep s)).
      simpl lstrip. rewrite Hc. rewrite split_cons.
      rewrite (not_space_not_sep _ Hc). repeat split. constructor.
Qed.

Lemma split_rstrip (s : string) :
  exists pre l post,
    split sep s = (pre ++ l :: post)%list /\
    Forall (fun x => allws x = true) post /\
    split sep (rstrip s) = (pre ++ [rstrip l])%list.
Proof.
  induction s as [|c s IH].
  - exists [], "", []. simpl. repeat split. constructor.
  - destruct IH as (pre & l & post & Hs & Hpost & Hl).
    destruct (string_dec (rstrip s) "") as [E|E].
    + rewrite (rstrip_cons_e c s E).
      pose proof (proj2 (rstrip_allws s) E) as Hws.
      pose proof (allws_split sep s Hws) as Hall.
      destruct (isspace c) eqn:Hc.
      * assert (Hws' : allws (String c s) = true)
          by (unfold allws in *; simpl; now rewrite Hc).
        pose proof (allws_split sep _ Hws') as Hall'.
        destruct (split sep (String c s)) as [|h t] eqn:Eh;
          [now apply split_not_nil in Eh|].
        inversion Hall'; subst.
        exists [], h, t. simpl. repeat split; auto.
        f_equal. symmetry. now apply rstrip_allws.
      * rewrite split_cons, (not_space_not_sep _ Hc).
        destruct (split sep s) as [|h t] eqn:Eh;
          [now apply split_not_nil in Eh|].
        inversion Hall; subst. simpl hd. simpl tl.
        exists [], (String c h), t. repeat split; auto.
        rewrite rstrip_cons_e by now apply rstrip_allws.
        rewrite Hc. simpl. rewrite (not_space_not_sep _ Hc). reflexivity.
    + rewrite (rstrip_cons_ne c s E). rewrite !split_cons.
      destruct (Ascii.eqb c sep) eqn:Ec.
      * exists ("" :: pre), l, post. rewrite Hs, Hl. repeat split; auto.
      * rewrite Hs, Hl. destruct pre as [|p pre].
        -- exists [], (String c l), post. simpl. repeat split; auto.
           f_equal. symmetry. apply rstrip_cons_ne. intros El.
           simpl in Hl. rewrite El in Hl. apply split_single_empty in Hl.
           contradiction.
        -- exists (String c p :: pre), l, post. simpl. repeat split; auto.
Qed.

(** A per-line extraction that ignores blank lines and the white space
    around a line sees the same thing before and after [strip]. *)
Lemma flat_map_split_strip {X : Type} (item : string -> list X) :
  (forall l, allws l = true -> item l = []) ->
  (forall l, item (lstrip l) = item l) ->
  (forall l, item (rstrip l) = item l) ->
  forall s, flat_map item (split sep (strip s)) = flat_map item (split sep s).
Proof.
  intros Hws Hl Hr s.
  assert (Hnil : forall ls, Forall (fun x => allws x = true) ls ->
                            flat_map item ls = []).
  { induction 1 as [|x ls Hx _ IH]; simpl; [reflexivity|].
    now rewrite (Hws x Hx), IH. }
  destruct (split_lstrip s) as (pre & l & post & Hs & Hpre & Hls).
  destruct (split_rstrip (lstrip s)) as (pre2 & l2 & post2 & Hs2 & Hpost2 & Hrs).
  unfold strip. rewrite Hrs, Hs.
  rewrite !flat_map_app. simpl. rewrite (Hnil pre Hpre), app_nil_r, Hr.
  simpl. rewrite <- (Hl l).
  change (item (lstrip l) ++ flat_map item post)%list
    with (flat_map item (lstrip l :: post)).
  rewrite <- Hls, Hs2, flat_map_app. simpl.
  now rewrite (Hnil post2 Hpost2), app_nil_r.
Qed.

(** A property of lines that blank lines have and that survives trimming a
    line holds of the lines of the stripped text. *)
Lemma Forall_split_strip (P : string -> Prop) :
  (forall l, P l -> P (lstrip l)) ->
  (forall l, P l -> P (rstrip l)) ->
  forall s, Forall P (split sep s) -> Forall P (split sep (strip s)).
Proof.
  intros Hl Hr s H.
  destruct (split_lstrip s) as (pre & l & post & Hs & Hpre & Hls).
  destruct (split_rstrip (lstrip s)) as (pre2 & l2 & post2 & Hs2 & Hpost2 & Hrs).
  unfold strip. rewrite Hrs.
  rewrite Hs in H. apply Forall_app in H. destruct H as [_ H].
  inversion H as [|? ? Hpl Hpp]; subst.
  assert (H2 : Forall P (lstrip l :: post)) by (constructor; auto).
  rewrite <- Hls, Hs2 in H2. apply Forall_app in H2. destruct H2 as [Ha Hb].
  inversion Hb; subst. apply Forall_app. split; [assumption|].
  constructor; auto.
Qed.

End Lines.
End PyFacts.

(** * Facts about [int] *)

Module IntFacts.
Import Py Analyzer PyFacts Spec.

Lemma int_isspace_isspace (c : ascii) :
  int_isspace c = true -> isspace c = true.
Proof. destruct c as [[] [] [] [] [] [] [] []]; vm_compute; congruence. Qed.

Lemma isdecimal_plain (c : ascii) :
  isdecimal c = true ->
  int_isspace c = false /\ Ascii.eqb c "-" = false /\ Ascii.eqb c "+" = false.
Proof.
  destruct c as [[] [] [] [] [] [] [] []]; vm_compute; intros H;
    try discriminate H; repeat split.
Qed.

Lemma all_chars_weaken (p q : ascii -> bool) (s : string) :
  (forall c, p c = true -> q c = true) ->
  all_chars p s = true -> all_chars q s = true.
Proof.
  intros Hpq. induction s as [|c s IH]; [reflexivity|]. cbn [all_chars].
  intros H. apply andb_true_iff in H. destruct H as [Hc Hs].
  now rewrite (Hpq c Hc), (IH Hs).
Qed.

(** [int] skips nothing in a text without the white space it knows. *)
Lemma int_rstrip_kept (s : string) :
  all_chars (fun c => negb (int_isspace c)) s = true -> int_rstrip s = s.
Proof.
  induction s as [|c s IH]; [reflexivity|]. cbn [all_chars int_rstrip].
  intros H. apply andb_true_iff in H. destruct H as [Hc Hs].
  rewrite (IH Hs). apply negb_true_iff in Hc. rewrite Hc. now destruct s.
Qed.

Lemma int_lstrip_kept (s : string) :
  all_chars (fun c => negb (int_isspace c)) s = true -> int_lstrip s = s.
Proof.
  destruct s as [|c s]; [reflexivity|]. cbn [all_chars int_lstrip].
  intros H. apply andb_true_iff in H. destruct H as [Hc _].
  apply negb_true_iff in Hc. now rewrite Hc.
Qed.

Lemma digit_groups_digits (s : string) (b : bool) :
  all_chars isdecimal s = true -> s <> "" \/ b = true ->
  digit_groups b s = Some s.
Proof.
  revert b. induction s as [|c s IH]; intros b Hd Hb.
  - destruct Hb as [Hb | ->]; [congruence | reflexivity].
  - cbn [all_chars] in Hd. apply andb_true_iff in Hd. destruct Hd as [Hc Hs].
    cbn [digit_groups]. rewrite Hc.
    now rewrite (IH true Hs (or_intror eq_refl)).
Qed.

Lemma fits_spec (limit : nat) (g : string) :
  (640 <? String.length g)%nat && (0 <? limit)%nat
  && (limit <? String.length g)%nat = false <-> fits limit g.
Proof.
  unfold fits.
  destruct (Nat.ltb_spec 640 (String.length g));
    destruct (Nat.ltb_spec 0 limit);
    destruct (Nat.ltb_spec limit (String.length g)); cbn [andb];
    split; intros K; try reflexivity; try discriminate K; lia.
Qed.

(** [int] on a run of digits, as a pattern captures it. *)
Lemma int_str_digits (limit : nat) (g : string) :
  g <> "" -> all_chars isdecimal g = true ->
  int_str limit g =
  if (640 <? String.length g)%nat && (0 <? limit)%nat
     && (limit <? String.length g)%nat
  then DigitLimit else IntOk (int g).
Proof.
  intros Hne Hd. unfold int_str.
  assert (Hk : all_chars (fun c => negb (int_isspace c)) g = true).
  { apply (all_chars_weaken isdecimal); [|exact Hd]. intros c Hc.
    now rewrite (proj1 (isdecimal_plain c Hc)). }
  rewrite (int_lstrip_kept g Hk), (int_rstrip_kept g Hk).
  destruct g as [|c r]; [congruence|].
  pose proof Hd as Hc. cbn [all_chars] in Hc. apply andb_true_iff in Hc.
  destruct Hc as [Hc _]. destruct (isdecimal_plain c Hc) as (_ & Hm & Hp).
  rewrite Hm, Hp.
  now rewrite (digit_groups_digits (String c r) false Hd
                 (or_introl Hne)).
Qed.

Lemma int_of_digits (limit : nat) (g : string) :
  g <> "" -> all_chars isdecimal g = true ->
  (fits limit g -> int_of limit g = Ok (int g)) /\
  (~ fits limit g -> int_of limit g = Raise digits_error).
Proof.
  intros Hne Hd. unfold int_of. rewrite (int_str_digits limit g Hne Hd).
  pose proof (fits_spec limit g) as F.
  destruct ((640 <? String.length g)%nat && (0 <? limit)%nat
            && (limit <? String.length g)%nat).
  - split; [|reflexivity]. intros K. apply F in K. discriminate K.
  - split; [reflexivity|]. intros K. destruct K. now apply F.
Qed.

(** What [_parse_diff_stats] returns, when it returns. *)
Lemma parse_inv (limit : nat) (raw stat : string) (mc : option Z)
    (d : DiffSummary) :
  _parse_diff_stats limit raw stat mc = Ok d ->
  files d = fold_left stat_line (split nl (strip stat)) [] /\
  match Re.search Re.insertions_re stat with
  | Some g => int_of limit g
  | None => Ok 0%Z
  end = Ok (total_additions d) /\
  match Re.search Re.deletions_re stat with
  | Some g => int_of limit g
  | None => Ok 0%Z
  end = Ok (total_deletions d) /\
  raw_diff d =
    match mc with
    | Some n =>
        if negb (n =? 0)%Z && (Z.of_nat (String.length raw) >? n)%Z
        then slice_to n raw ++ truncation_marker
        else raw
    | None => raw
    end.
Proof.
  unfold _parse_diff_stats.
  destruct (match Re.search Re.insertions_re stat with
            | Some g => int_of limit g
            | None => Ok 0%Z
            end) as [a|e]; cbn [bind]; [|discriminate].
  destruct (match Re.search Re.deletions_re stat with
            | Some g => int_of limit g
            | None => Ok 0%Z
            end) as [b|e]; cbn [bind]; [|discriminate].
  intros H. injection H as <-. cbn [files total_additions total_deletions
                                      raw_diff]. auto.
Qed.

End IntFacts.

Module StatFacts.
Import Py Analyzer PyFacts Spec.

Lemma prefix_empty (s : string) : prefix "" s = true.
Proof. now destruct s. Qed.

Lemma str_in_chr_cons (c d : ascii) (s : string) :
  str_in (chr c) (String d s) = Ascii.eqb d c || str_in (chr c) s.
Proof.
  simpl. destruct (ascii_dec c d) as [->|n].
  - now rewrite prefix_empty, Ascii.eqb_refl.
  - destruct (Ascii.eqb_spec d c); [congruence | reflexivity].
Qed.

Lemma str_in_chr_allws (c : ascii) (s : string) :
  isspace c = false -> allws s = true -> str_in (chr c) s = false.
Proof.
  intros Hc. unfold allws. induction s as [|d s IH]; [reflexivity|].
  intros H. simpl in H. apply andb_true_iff in H. destruct H as [Hd Hs].
  rewrite str_in_chr_cons, (IH Hs), orb_false_r.
  destruct (Ascii.eqb_spec d c); [congruence | reflexivity].
Qed.

Lemma fold_stat_line (lines acc : list string) :
  fold_left stat_line lines acc = (acc ++ flat_map stat_item lines)%list.
Proof.
  revert acc. induction lines as [|l ls IH]; intros acc; simpl.
  - now rewrite app_nil_r.
  - rewrite IH. unfold stat_line, stat_item.
    destruct (str_in (chr bar) l); simpl; [now rewrite <- app_assoc | reflexivity].
Qed.

Lemma flat_map_stat_item (lines : list string) :
  flat_map stat_item lines =
  map (fun l => strip (hd "" (split bar l)))
      (filter (fun l => str_in (chr bar) l) lines).
Proof.
  induction lines as [|l ls IH]; [reflexivity|]. simpl. unfold stat_item at 1.
  destruct (str_in (chr bar) l); simpl; now rewrite IH.
Qed.

Lemma strip_cons_space (c : ascii) (s : string) :
  isspace c = true -> strip (String c s) = strip s.
Proof. intros H. unfold strip. simpl. now rewrite H. Qed.

Lemma stat_item_allws (l : string) : allws l = true -> stat_item l = [].
Proof.
  intros H. unfold stat_item. now rewrite str_in_chr_allws.
Qed.

Lemma stat_item_cons_space (c : ascii) (l : string) :
  isspace c = true -> stat_item (String c l) = stat_item l.
Proof.
  intros Hc. unfold stat_item. rewrite str_in_chr_cons, split_cons.
  assert (E : Ascii.eqb c bar = false).
  { destruct (Ascii.eqb_spec c bar) as [->|]; [discriminate | reflexivity]. }
  rewrite E. simpl. now rewrite strip_cons_space.
Qed.

Lemma stat_item_lstrip (l : string) : stat_item (lstrip l) = stat_item l.
Proof.
  induction l as [|c l IH]; [reflexivity|]. simpl.
  destruct (isspace c) eqn:Hc; [|reflexivity].
  now rewrite stat_item_cons_space.
Qed.

Lemma bar_rstrip (l : string) :
  str_in (chr bar) (rstrip l) = str_in (chr bar) l /\
  (str_in (chr bar) l = true ->
   hd "" (split bar (rstrip l)) = hd "" (split bar l)).
Proof.
  induction l as [|c l [IH1 IH2]]; [split; reflexivity|].
  destruct (string_dec (rstrip l) "") as [E|E].
  - rewrite (rstrip_cons_e c l E).
    pose proof (proj2 (rstrip_allws l) E) as Hws.
    rewrite str_in_chr_cons, (str_in_chr_allws bar l eq_refl Hws), orb_false_r.
    destruct (Ascii.eqb c bar) eqn:Ec.
    + apply Ascii.eqb_eq in Ec. subst c. simpl. split; reflexivity.
    + destruct (isspace c).
      * split; [reflexivity | discriminate].
      * split; [|discriminate]. change (chr c) with (String c "").
        rewrite str_in_chr_cons, Ec. reflexivity.
  - rewrite (rstrip_cons_ne c l E). rewrite !str_in_chr_cons, !split_cons.
    rewrite IH1. split; [reflexivity|].
    destruct (Ascii.eqb c bar); simpl; [reflexivity|].
    intros H. now rewrite IH2.
Qed.

Lemma stat_item_rstrip (l : string) : stat_item (rstrip l) = stat_item l.
Proof.
  unfold stat_item. destruct (bar_rstrip l) as [H1 H2]. rewrite H1.
  destruct (str_in (chr bar) l); [|reflexivity]. now rewrite H2.
Qed.

Lemma files_of_summary (limit : nat) (raw stat : string) (mc : option Z)
    (d : DiffSummary) :
  _parse_diff_stats limit raw stat mc = Ok d ->
  files d =
  map (fun l => strip (hd "" (split bar l)))
      (filter (fun l => str_in (chr bar) l) (split nl stat)).
Proof.
  intros H. rewrite (proj1 (IntFacts.parse_inv limit raw stat mc d H)).
  rewrite fold_stat_line. simpl.
  rewrite (flat_map_split_strip nl eq_refl stat_item
             stat_item_allws stat_item_lstrip stat_item_rstrip).
  apply flat_map_stat_item.
Qed.

End StatFacts.

Module ReFacts.
Import Py Re PyFacts Spec.

Lemma after_prefix_spec (p s r : string) :
  after_prefix p s = Some r <-> s = p ++ r.
Proof.
  revert s. induction p as [|a p IH]; intros s; simpl.
  - destruct s; split; congruence.
  - destruct s as [|b s]; [split; discriminate|].
    destruct (Ascii.eqb_spec a b) as [->|n].
    + rewrite IH. split; congruence.
    + split; [discriminate | congruence].
Qed.

Lemma after_prefix_app (p r : string) : after_prefix p (p ++ r) = Some r.
Proof. now apply after_prefix_spec. Qed.

Lemma digits_plus_sound (k : string -> string -> option string)
  (s acc g : string) :
  digits_plus k acc s = Some g ->
  exists ds rest, ds <> "" /\ all_chars isdecimal ds = true /\
                  s = ds ++ rest /\ k (acc ++ ds) rest = Some g.
Proof.
  revert acc. induction s as [|c s IH]; intros acc; simpl; [discriminate|].
  destruct (isdecimal c) eqn:Hc; [|discriminate].
  destruct (digits_plus k (acc ++ chr c) s) as [g'|] eqn:E.
  - intros H. injection H as ->. apply IH in E.
    destruct E as (ds & rest & Hne & Hd & Hs & Hk).
    exists (String c ds), rest. repeat split.
    + discriminate.
    + simpl. now rewrite Hc, Hd.
    + simpl. now rewrite Hs.
    + rewrite <- Hk. f_equal. now rewrite append_assoc.
  - intros H. exists (chr c), s. repeat split.
    + discriminate.
    + simpl. now rewrite Hc.
    + exact H.
Qed.

Lemma digits_plus_complete (k : string -> string -> option string)
  (ds rest acc g : string) :
  ds <> "" -> all_chars isdecimal ds = true ->
  match rest with "" => True | String c _ => isdecimal c = false end ->
  k (acc ++ ds) rest = Some g ->
  digits_plus k acc (ds ++ rest) = Some g.
Proof.
  revert acc. induction ds as [|c ds IH]; intros acc Hne Hd Hrest Hk;
    [congruence|].
  simpl in Hd. apply andb_true_iff in Hd. destruct Hd as [Hc Hd].
  simpl. rewrite Hc. destruct ds as [|d ds].
  - simpl. destruct rest as [|e rest]; simpl.
    + exact Hk.
    + rewrite Hrest. exact Hk.
  - rewrite (IH (acc ++ chr c)); auto; [discriminate|].
    rewrite append_assoc. exact Hk.
Qed.

Lemma tail_sound (w o sg rest g g' : string) :
  match_here [Lit w; Opt o; Lit sg] rest g = Some g' ->
  g' = g /\ exists r, rest = w ++ sg ++ r \/ rest = w ++ o ++ sg ++ r.
Proof.
  cbn [match_here]. destruct (after_prefix w rest) as [r1|] eqn:E1; [|discriminate].
  apply after_prefix_spec in E1. subst rest.
  assert (Hno : match after_prefix sg r1 with
                | Some _ => Some g | None => None end = Some g' ->
                g' = g /\ exists r, w ++ r1 = w ++ sg ++ r \/
                                    w ++ r1 = w ++ o ++ sg ++ r).
  { destruct (after_prefix sg r1) as [r|] eqn:E; [|discriminate].
    apply after_prefix_spec in E. subst r1. intros H; injection H as <-.
    split; [reflexivity|]. exists r. now left. }
  destruct (after_prefix o r1) as [r2|] eqn:E2; [|exact Hno].
  apply after_prefix_spec in E2.
  destruct (after_prefix sg r2) as [r3|] eqn:E3; [|exact Hno].
  apply after_prefix_spec in E3. subst. intros H; injection H as <-.
  split; [reflexivity|]. exists r3. now right.
Qed.

Lemma tail_complete (w o sg r g : string) :
  match_here [Lit w; Opt o; Lit sg] (w ++ sg ++ r) g = Some g /\
  match_here [Lit w; Opt o; Lit sg] (w ++ o ++ sg ++ r) g = Some g.
Proof.
  cbn [match_here]. rewrite !after_prefix_app. split.
  - destruct (after_prefix o (sg ++ r)) as [r2|];
      [destruct (after_prefix sg r2)|]; reflexivity.
  - reflexivity.
Qed.

Lemma search_sound (p : pattern) (s g : string) :
  search p s = Some g ->
  exists pre s', s = pre ++ s' /\ match_here p s' "" = Some g.
Proof.
  induction s as [|c s IH]; simpl.
  - destruct (match_here p "" "") eqn:E; [|discriminate].
    intros H; injection H as ->. now exists "", "".
  - destruct (match_here p (String c s) "") eqn:E.
    + intros H; injection H as ->. now exists "", (String c s).
    + intros H. destruct (IH H) as (pre & s' & -> & Hm).
      now exists (String c pre), s'.
Qed.

Lemma search_complete (p : pattern) (pre s' g : string) :
  match_here p s' "" = Some g -> exists g', search p (pre ++ s') = Some g'.
Proof.
  intros Hm. induction pre as [|c pre IH]; simpl.
  - destruct s'; simpl; rewrite Hm; eauto.
  - destruct (match_here p (String c (pre ++ s')) ""); eauto.
Qed.

(** [re.search] finds nothing exactly when no substring has the shape of
    the pattern. *)
Lemma search_count_none (w sg s : string) :
  match w with "" => False | String c _ => isdecimal c = false end ->
  search (count_re w sg) s = None <-> ~ occurs (count_phrase w sg) s.
Proof.
  intros Hw. split.
  - intros Hnone (pre & sub & post & -> & ds & Hne & Hd & Hsub).
    assert (Hm : match_here (count_re w sg) (sub ++ post) "" = Some ds).
    { unfold count_re.
      change (match_here [Digits1; Lit w; Opt "s"; Lit sg] (sub ++ post) "")
        with (digits_plus (fun g rest =>
                match_here [Lit w; Opt "s"; Lit sg] rest g) "" (sub ++ post)).
      destruct (tail_complete w "s" sg post ds) as [T1 T2].
      destruct Hsub as [-> | ->]; rewrite !append_assoc;
        apply digits_plus_complete; auto;
        destruct w; try contradiction; auto. }
    destruct (search_complete _ pre _ _ Hm) as [g' Hg]. congruence.
  - intros Hno. destruct (search (count_re w sg) s) as [g|] eqn:E;
      [|reflexivity].
    exfalso. apply Hno. apply search_sound in E.
    destruct E as (pre & s' & -> & Hm). unfold count_re in Hm.
    change (match_here [Digits1; Lit w; Opt "s"; Lit sg] s' "")
      with (digits_plus (fun g rest =>
              match_here [Lit w; Opt "s"; Lit sg] rest g) "" s') in Hm.
    apply digits_plus_sound in Hm.
    destruct Hm as (ds & rest & Hne & Hd & -> & Hk).
    apply tail_sound in Hk. destruct Hk as [_ [r [Hr | Hr]]]; subst rest.
    + exists pre, (ds ++ w ++ sg), r. split.
      * now rewrite !append_assoc.
      * exists ds. auto.
    + exists pre, (ds ++ w ++ "s" ++ sg), r. split.
      * now rewrite !append_assoc.
      * exists ds. auto.
Qed.

End ReFacts.

Module JoinFacts.
Import Py PyFacts Spec.

Lemma has_char_cons (c d : ascii) (s : string) :
  has_char c (String d s) = Ascii.eqb d c || has_char c s.
Proof.
  unfold has_char. simpl. rewrite negb_andb, negb_involutive. reflexivity.
Qed.

Lemma has_char_app (c : ascii) (a b : string) :
  has_char c (a ++ b) = has_char c a || has_char c b.
Proof.
  induction a as [|d a IH]; [reflexivity|].
  simpl append. rewrite !has_char_cons, IH. now rewrite orb_assoc.
Qed.

Lemma split_no_sep (c : ascii) (a : string) :
  has_char c a = false -> split c a = [a].
Proof.
  induction a as [|d a IH]; [reflexivity|].
  rewrite has_char_cons. intros H. apply orb_false_iff in H.
  destruct H as [Hd Ha]. rewrite split_cons, Hd, (IH Ha). reflexivity.
Qed.

Lemma split_app_sep (c : ascii) (a b : string) :
  has_char c a = false -> split c (a ++ String c b) = a :: split c b.
Proof.
  induction a as [|d a IH].
  - intros _. simpl. now rewrite Ascii.eqb_refl.
  - rewrite has_char_cons. intros H. apply orb_false_iff in H.
    destruct H as [Hd Ha]. simpl append. rewrite split_cons, Hd, (IH Ha).
    reflexivity.
Qed.

Lemma split_concat (c : ascii) (parts : list string) :
  parts <> [] ->
  Forall (fun f => has_char c f = false) parts ->
  split c (String.concat (chr c) parts) = parts.
Proof.
  intros Hne H. induction H as [|f fs Hf Hfs IH]; [congruence|].
  destruct fs as [|g fs].
  - simpl. now apply split_no_sep.
  - change (String.concat (chr c) (f :: g :: fs))
      with (f ++ String c (String.concat (chr c) (g :: fs))).
    rewrite (split_app_sep c f _ Hf), IH; [reflexivity | discriminate].
Qed.

Lemma lstrip_app_nonspace (c : ascii) (a b : string) :
  isspace c = false -> lstrip (a ++ String c b) = lstrip a ++ String c b.
Proof.
  intros Hc. induction a as [|d a IH]; simpl.
  - now rewrite Hc.
  - destruct (isspace d); [exact IH | reflexivity].
Qed.

Lemma rstrip_cons_nonspace (c : ascii) (s : string) :
  isspace c = false -> rstrip (String c s) = String c (rstrip s).
Proof. intros Hc. simpl. rewrite Hc. now destruct (rstrip s). Qed.

Lemma rstrip_app_nonspace (c : ascii) (a b : string) :
  isspace c = false -> rstrip (a ++ String c b) = a ++ String c (rstrip b).
Proof.
  intros Hc. induction a as [|d a IH].
  - simpl append. now apply rstrip_cons_nonspace.
  - simpl append. rewrite rstrip_cons_ne, IH; [reflexivity|].
    rewrite IH. now destruct a.
Qed.

Lemma has_char_lstrip (c : ascii) (s : string) :
  has_char c s = false -> has_char c (lstrip s) = false.
Proof.
  induction s as [|d s IH]; [reflexivity|]. intros H. simpl.
  destruct (isspace d); [|exact H].
  rewrite has_char_cons in H. apply orb_false_iff in H. now apply IH.
Qed.

Lemma has_char_rstrip (c : ascii) (s : string) :
  has_char c s = false -> has_char c (rstrip s) = false.
Proof.
  induction s as [|d s IH]; [reflexivity|]. rewrite has_char_cons.
  intros H. apply orb_false_iff in H. destruct H as [Hd Hs].
  simpl. destruct (rstrip s) eqn:E.
  - destruct (isspace d); [reflexivity|].
    unfold chr. now rewrite has_char_cons, Hd.
  - rewrite has_char_cons, Hd. simpl. now apply IH.
Qed.

Lemma rstrip_concat (c : ascii) (l : list string) :
  isspace c = false ->
  rstrip (String.concat (chr c) l) = String.concat (chr c) (rstrip_last l).
Proof.
  intros Hc. induction l as [|x xs IH]; [reflexivity|].
  destruct xs as [|y xs]; [reflexivity|].
  change (String.concat (chr c) (x :: y :: xs))
    with (x ++ String c (String.concat (chr c) (y :: xs))).
  rewrite (rstrip_app_nonspace c x _ Hc), IH.
  change (rstrip_last (x :: y :: xs)) with (x :: rstrip_last (y :: xs)).
  destruct (rstrip_last (y :: xs)) eqn:E; [|reflexivity].
  destruct xs; discriminate.
Qed.

Lemma strip_concat (c : ascii) (l : list string) :
  isspace c = false ->
  strip (String.concat (chr c) l) = String.concat (chr c) (trim_ends l).
Proof.
  intros Hc. destruct l as [|x [|y xs]]; [reflexivity | reflexivity |].
  change (String.concat (chr c) (x :: y :: xs))
    with (x ++ String c (String.concat (chr c) (y :: xs))).
  unfold strip. rewrite (lstrip_app_nonspace c x _ Hc).
  rewrite (rstrip_app_nonspace c _ _ Hc), (rstrip_concat c _ Hc).
  unfold trim_ends.
  destruct (rstrip_last (y :: xs)) eqn:E; [|reflexivity].
  destruct xs; discriminate.
Qed.

Lemma length_rstrip_last (l : list string) :
  List.length (rstrip_last l) = List.length l.
Proof.
  induction l as [|x [|y xs] IH]; [reflexivity | reflexivity |].
  change (rstrip_last (x :: y :: xs)) with (x :: rstrip_last (y :: xs)).
  cbn [List.length] in *. now rewrite IH.
Qed.

Lemma length_trim_ends (l : list string) :
  List.length (trim_ends l) = List.length l.
Proof.
  destruct l as [|x [|y xs]]; [reflexivity | reflexivity |].
  change (trim_ends (x :: y :: xs)) with (lstrip x :: rstrip_last (y :: xs)).
  cbn [List.length]. now rewrite length_rstrip_last.
Qed.

Lemma Forall_rstrip_last (c : ascii) (l : list string) :
  Forall (fun f => has_char c f = false) l ->
  Forall (fun f => has_char c f = false) (rstrip_last l).
Proof.
  induction 1 as [|x xs Hx Hxs IH]; [constructor|].
  destruct xs as [|y xs].
  - constructor; [now apply has_char_rstrip | constructor].
  - change (rstrip_last (x :: y :: xs)) with (x :: rstrip_last (y :: xs)).
    now constructor.
Qed.

Lemma Forall_trim_ends (c : ascii) (l : list string) :
  Forall (fun f => has_char c f = false) l ->
  Forall (fun f => has_char c f = false) (trim_ends l).
Proof.
  intros H. destruct l as [|x [|y xs]]; [constructor | |].
  - inversion H; subst. constructor; [|constructor].
    unfold strip. now apply has_char_rstrip, has_char_lstrip.
  - inversion H; subst. unfold trim_ends. constructor.
    + now apply has_char_lstrip.
    + now apply Forall_rstrip_last.
Qed.

End JoinFacts.

Module CommitFacts.
Import Py Analyzer PyFacts JoinFacts StatFacts Spec.

Lemma allws_has_char (c : ascii) (s : string) :
  isspace c = false -> allws s = true -> has_char c s = false.
Proof.
  intros Hc. unfold allws. induction s as [|d s IH]; [reflexivity|].
  simpl. intros H. apply andb_true_iff in H. destruct H as [Hd Hs].
  rewrite has_char_cons, (IH Hs), orb_false_r.
  destruct (Ascii.eqb_spec d c); [congruence | reflexivity].
Qed.

Lemma truthy_false (s : string) : truthy s = false <-> s = "".
Proof. destruct s; simpl; split; congruence. Qed.

Lemma allws_lstrip (s : string) : allws (lstrip s) = allws s.
Proof.
  unfold allws. induction s as [|c s IH]; [reflexivity|]. simpl.
  destruct (isspace c) eqn:Hc; [exact IH|]. simpl. now rewrite Hc.
Qed.

Lemma strip_empty (s : string) : strip s = "" <-> allws s = true.
Proof. unfold strip. now rewrite <- rstrip_allws, allws_lstrip. Qed.

Lemma length_split_cons (c d : ascii) (s : string) :
  List.length (split c (String d s)) =
  if Ascii.eqb d c then S (List.length (split c s))
  else List.length (split c s).
Proof.
  rewrite split_cons. destruct (Ascii.eqb d c); [reflexivity|].
  destruct (split c s) eqn:E; [now apply split_not_nil in E | reflexivity].
Qed.

Lemma length_split_lstrip (c : ascii) (s : string) :
  isspace c = false ->
  List.length (split c (lstrip s)) = List.length (split c s).
Proof.
  intros Hc. induction s as [|d s IH]; [reflexivity|].
  simpl lstrip. destruct (isspace d) eqn:Hd; [|reflexivity].
  rewrite IH, length_split_cons.
  destruct (Ascii.eqb_spec d c); [congruence | reflexivity].
Qed.

Lemma length_split_rstrip (c : ascii) (s : string) :
  isspace c = false ->
  List.length (split c (rstrip s)) = List.length (split c s).
Proof.
  intros Hc. induction s as [|d s IH]; [reflexivity|].
  destruct (string_dec (rstrip s) "") as [E|E].
  - rewrite (rstrip_cons_e d s E), length_split_cons, <- IH, E.
    destruct (isspace d) eqn:Hd.
    + destruct (Ascii.eqb_spec d c); [congruence | reflexivity].
    + unfold chr. now rewrite length_split_cons.
  - rewrite (rstrip_cons_ne d s E), !length_split_cons, IH. reflexivity.
Qed.

Lemma length_split_strip (c : ascii) (s : string) :
  isspace c = false ->
  List.length (split c (strip s)) = List.length (split c s).
Proof.
  intros Hc. unfold strip.
  now rewrite length_split_rstrip, length_split_lstrip.
Qed.

Section Commits.
Variable datetime : Type.
Variable fromisoformat : string -> option datetime.
Variable now : nat -> datetime.

Abbreviation commit_entry := (commit_entry datetime fromisoformat now).
Abbreviation commit_date := (commit_date datetime fromisoformat now).
Abbreviation get_recent_commits := (get_recent_commits datetime fromisoformat now).
Abbreviation entry_record := (entry_record datetime fromisoformat now).
Abbreviation record_of := (record_of datetime).

Lemma commit_entry_eq (commits : list (CommitInfo datetime)) (t : nat)
  (e : string) :
  commit_entry (commits, t) e =
  let parts := split NUL (strip e) in
  if (5 <=? List.length parts)%nat
  then ((commits ++ [record_of parts (fst (commit_date parts t))])%list,
        snd (commit_date parts t))
  else (commits, t).
Proof.
  unfold Analyzer.commit_entry. cbv zeta.
  destruct (truthy (strip e)) eqn:E; cbn [negb].
  - destruct (5 <=? List.length (split NUL (strip e)))%nat; [|reflexivity].
    destruct (commit_date (split NUL (strip e)) t); reflexivity.
  - apply truthy_false in E. rewrite E. reflexivity.
Qed.

Lemma get_recent_commits_fold (run : subprocess) (days : Z) (out : string) :
  _run_git run (log_args days) = Ok out ->
  get_recent_commits run days =
  Ok (fst (fold_left commit_entry (split SOH out) ([], 0%nat))).
Proof.
  intros H. unfold Analyzer.get_recent_commits. rewrite H. cbn [bind].
  destruct (truthy (strip out)) eqn:E; [reflexivity|]. cbn [negb].
  apply truthy_false in E.
  assert (Hws : allws out = true) by now apply strip_empty.
  rewrite (split_no_sep SOH out (allws_has_char SOH out eq_refl Hws)).
  cbn [fold_left]. rewrite commit_entry_eq. cbv zeta. rewrite E. reflexivity.
Qed.


Lemma fold_commit_entry (es : list string) :
  forall (commits : list (CommitInfo datetime)) (t : nat),
  exists new t',
    fold_left commit_entry es (commits, t) = ((commits ++ new)%list, t') /\
    Forall2 entry_record (filter has_five_fields es) new.
Proof.
  induction es as [|e es IH]; intros commits t.
  - exists [], t. simpl. rewrite app_nil_r. split; [reflexivity | constructor].
  - cbn [fold_left filter]. rewrite commit_entry_eq. cbv zeta.
    unfold has_five_fields at 1.
    rewrite (length_split_strip NUL e eq_refl).
    destruct (5 <=? List.length (split NUL e))%nat.
    + set (parts := split NUL (strip e)).
      destruct (IH (commits ++ [record_of parts (fst (commit_date parts t))])%list
                   (snd (commit_date parts t))) as (new & t' & Hf & Hr).
      exists (record_of parts (fst (commit_date parts t)) :: new), t'.
      split; [rewrite Hf; now rewrite <- app_assoc|].
      constructor; [|exact Hr]. unfold entry_record. fold parts. cbv zeta.
      split; [reflexivity|]. cbn [date record_of].
      unfold Analyzer.commit_date. fold (iso_text parts).
      destruct (fromisoformat (iso_text parts)); cbn [fst]; eauto.
    + apply IH.
Qed.

Lemma split_strip_concat (fr : list string) :
  fr <> [] -> Forall (fun f => has_char NUL f = false) fr ->
  split NUL (strip (String.concat (chr NUL) fr)) = trim_ends fr.
Proof.
  intros Hne H. rewrite (strip_concat NUL fr eq_refl). apply split_concat.
  - intros E. apply (f_equal (@List.length string)) in E.
    rewrite length_trim_ends in E. destruct fr; [congruence | discriminate].
  - now apply Forall_trim_ends.
Qed.

Lemma summary_entry (fr : list string) (commits : list (CommitInfo datetime))
  (t : nat) :
  Forall (fun f => has_char NUL f = false) fr ->
  map summary (fst (commit_entry (commits, t) (String.concat (chr NUL) fr))) =
  (map summary commits ++ expected_fields fr)%list.
Proof.
  intros H. rewrite commit_entry_eq. cbv zeta.
  destruct fr as [|a fr'] eqn:Efr.
  - cbn. now rewrite app_nil_r.
  - rewrite <- Efr in *. assert (Hne : fr <> []) by (subst; discriminate).
    rewrite (split_strip_concat fr Hne H), length_trim_ends.
    unfold expected_fields.
    destruct (5 <=? List.length fr)%nat eqn:E5; cbn [fst];
      [|now rewrite app_nil_r].
    rewrite map_app. f_equal. cbn [map]. f_equal.
    subst fr. destruct fr' as [|b [|c [|d [|e rest]]]]; try discriminate.
    destruct rest; reflexivity.
Qed.

Lemma summary_fold (frags : list (list string)) :
  Forall (Forall (fun f => has_char NUL f = false)) frags ->
  forall (commits : list (CommitInfo datetime)) (t : nat),
  map summary
    (fst (fold_left commit_entry (map (String.concat (chr NUL)) frags)
            (commits, t))) =
  (map summary commits ++ flat_map expected_fields frags)%list.
Proof.
  induction 1 as [|fr frags Hfr _ IH]; intros commits t.
  - simpl. now rewrite app_nil_r.
  - cbn [map fold_left flat_map].
    pose proof (summary_entry fr commits t Hfr) as Hs.
    destruct (commit_entry (commits, t) (String.concat (chr NUL) fr))
      as [c' t'].
    rewrite IH. cbn [fst] in Hs. rewrite Hs. now rewrite app_assoc.
Qed.

Lemma has_char_concat (c d : ascii) (fr : list string) :
  Ascii.eqb d c = false ->
  Forall (fun f => has_char c f = false) fr ->
  has_char c (String.concat (chr d) fr) = false.
Proof.
  intros Hd. induction 1 as [|f fs Hf Hfs IH]; [reflexivity|].
  destruct fs as [|g fs]; [exact Hf|].
  change (String.concat (chr d) (f :: g :: fs))
    with (f ++ String d (String.concat (chr d) (g :: fs))).
  now rewrite has_char_app, has_char_cons, Hf, Hd, IH.
Qed.

Lemma split_log_text (frags : list (list string)) :
  frags <> [] ->
  Forall (Forall clean_field) frags ->
  split SOH (log_text frags) = map (String.concat (chr NUL)) frags.
Proof.
  intros Hne H. unfold log_text. apply split_concat.
  - destruct frags; [congruence | discriminate].
  - apply Forall_map. eapply Forall_impl; [|exact H].
    intros fr Hfr. apply has_char_concat; [reflexivity|].
    eapply Forall_impl; [|exact Hfr]. now intros f [_ Hf].
Qed.

End Commits.
End CommitFacts.

(** * Facts about the diff body and its character budget *)

Module DiffFacts.
Import Py Analyzer PyFacts Spec.

Lemma take_substring (n : nat) (s : string) : take n s = substring 0 n s.
Proof.
  revert s. induction n as [|n IH]; intros [|c s]; simpl;
    try reflexivity. now rewrite IH.
Qed.

Lemma length_take (n : nat) (s : string) :
  (n <= String.length s)%nat -> String.length (take n s) = n.
Proof.
  revert s. induction n as [|n IH]; intros [|c s]; simpl; intros H;
    try reflexivity; try lia. rewrite IH; lia.
Qed.

End DiffFacts.

(** * Facts about the command runner *)

Module RunFacts.
Import Py Analyzer PyFacts Spec ReFacts.

Lemma prefix_spec (p s : string) :
  prefix p s = true <-> exists r, s = p ++ r.
Proof.
  revert s. induction p as [|a p IH]; intros s.
  - rewrite StatFacts.prefix_empty. split; [now exists s | reflexivity].
  - destruct s as [|b s]; simpl.
    + split; [discriminate | intros [r H]; discriminate].
    + destruct (ascii_dec a b) as [->|n].
      * rewrite IH. split; intros [r H]; exists r; congruence.
      * split; [discriminate | intros [r H]; congruence].
Qed.

(** [sub in s] holds exactly when [sub] occurs in [s]. *)
Lemma str_in_spec (sub s : string) :
  str_in sub s = true <-> contains_text sub s.
Proof.
  unfold contains_text. induction s as [|c s IH].
  - cbn [str_in]. rewrite orb_false_r, prefix_spec. split.
    + intros [r H]. now exists "", r.
    + intros (pre & post & H). destruct pre; [now exists post | discriminate].
  - cbn [str_in]. rewrite orb_true_iff, prefix_spec, IH. split.
    + intros [[r H] | (pre & post & H)].
      * now exists "", r.
      * exists (String c pre), post. simpl. now rewrite H.
    + intros (pre & post & H). destruct pre as [|d pre].
      * left. now exists post.
      * right. exists pre, post. simpl in H. congruence.
Qed.

End RunFacts.

(** * Facts about the diff-stat summary *)

Module SummaryFacts.
Import Py Analyzer PyFacts JoinFacts StatFacts ReFacts Spec.

Lemma hd_split_before (c : ascii) (s : string) :
  hd "" (split c s) = before c s.
Proof.
  induction s as [|d s IH]; [reflexivity|].
  rewrite split_cons. simpl. destruct (Ascii.eqb d c); [reflexivity|].
  simpl. now rewrite IH.
Qed.

Lemma str_in_chr (c : ascii) (s : string) : str_in (chr c) s = has_char c s.
Proof.
  induction s as [|d s IH]; [reflexivity|].
  now rewrite str_in_chr_cons, has_char_cons, IH.
Qed.

Lemma search_none_total (w sg stat : string) :
  match w with "" => False | String c _ => isdecimal c = false end ->
  ~ occurs (count_phrase w sg) stat ->
  match Re.search (count_re w sg) stat with
  | Some g => int g
  | None => 0%Z
  end = 0%Z.
Proof.
  intros Hw H. now rewrite (proj2 (search_count_none w sg stat Hw) H).
Qed.

(** The group a count pattern captures is a run of digits. *)
Lemma search_group (w sg s g : string) :
  Re.search (count_re w sg) s = Some g ->
  g <> "" /\ all_chars isdecimal g = true.
Proof.
  intros H. destruct (search_sound _ _ _ H) as (pre & s' & _ & Hm).
  unfold count_re in Hm.
  change (Re.match_here [Re.Digits1; Re.Lit w; Re.Opt "s"; Re.Lit sg] s' "")
    with (Re.digits_plus
            (fun g rest =>
               Re.match_here [Re.Lit w; Re.Opt "s"; Re.Lit sg] rest g)
            "" s') in Hm.
  destruct (digits_plus_sound _ _ _ _ Hm) as (ds & rest & Hne & Hd & _ & Hk).
  destruct (tail_sound _ _ _ _ _ _ Hk) as [-> _]. now split.
Qed.

(** The conversion of the count a pattern finds: it gives the number the
    digits write when [int] converts them, and raises otherwise. *)
Lemma count_outcome (limit : nat) (w sg stat : string) :
  let found := Re.search (count_re w sg) stat in
  let r := match found with
           | Some g => int_of limit g
           | None => Ok 0%Z
           end in
  let n := match found with Some g => int g | None => 0%Z end in
  ((forall g, found = Some g -> fits limit g) -> r = Ok n) /\
  (forall m, r = Ok m -> m = n /\ forall g, found = Some g -> fits limit g) /\
  (forall e, r = Raise e ->
     e = digits_error /\ exists g, found = Some g /\ ~ fits limit g).
Proof.
  cbv zeta. destruct (Re.search (count_re w sg) stat) as [g|] eqn:E.
  - destruct (search_group w sg stat g E) as [Hne Hd].
    destruct (IntFacts.int_of_digits limit g Hne Hd) as [Hok Hbad].
    assert (Hdec : fits limit g \/ ~ fits limit g).
    { pose proof (IntFacts.fits_spec limit g) as F.
      destruct ((640 <? String.length g)%nat && (0 <? limit)%nat
                && (limit <? String.length g)%nat).
      - right. intros K. apply F in K. discriminate K.
      - left. now apply F. }
    split; [|split].
    + intros H. apply Hok, H. reflexivity.
    + intros m Hm. destruct Hdec as [Hf | Hf].
      * rewrite (Hok Hf) in Hm. injection Hm as <-.
        split; [reflexivity|]. intros g' Hg'. now injection Hg' as <-.
      * rewrite (Hbad Hf) in Hm. discriminate Hm.
    + intros e He. destruct Hdec as [Hf | Hf].
      * rewrite (Hok Hf) in He. discriminate He.
      * rewrite (Hbad Hf) in He. injection He as <-.
        split; [reflexivity|]. now exists g.
  - split; [|split].
    + reflexivity.
    + intros m Hm. injection Hm as <-. split; [reflexivity|]. discriminate.
    + discriminate.
Qed.

(** [_parse_diff_stats] returns a summary exactly when [int] converts the
    counts it finds; the counts of the summary are then the numbers their
    digits write. *)
Lemma parse_returns (limit : nat) (raw stat : string) (mc : option Z) :
  counts_fit limit stat ->
  exists d, _parse_diff_stats limit raw stat mc = Ok d.
Proof.
  intros [Hi Hd]. unfold _parse_diff_stats.
  change Re.insertions_re with (count_re " insertion" "(+)") in *.
  change Re.deletions_re with (count_re " deletion" "(-)") in *.
  rewrite (proj1 (count_outcome limit " insertion" "(+)" stat) Hi).
  rewrite (proj1 (count_outcome limit " deletion" "(-)" stat) Hd).
  cbn [bind]. eauto.
Qed.

Lemma parse_counts (limit : nat) (raw stat : string) (mc : option Z)
    (d : DiffSummary) :
  _parse_diff_stats limit raw stat mc = Ok d ->
  total_additions d =
    match Re.search Re.insertions_re stat with
    | Some g => int g
    | None => 0%Z
    end /\
  total_deletions d =
    match Re.search Re.deletions_re stat with
    | Some g => int g
    | None => 0%Z
    end /\
  counts_fit limit stat.
Proof.
  intros H. destruct (IntFacts.parse_inv limit raw stat mc d H)
    as (_ & Ha & Hd & _).
  change Re.insertions_re with (count_re " insertion" "(+)") in *.
  change Re.deletions_re with (count_re " deletion" "(-)") in *.
  destruct (proj1 (proj2 (count_outcome limit " insertion" "(+)" stat))
              _ Ha) as [Ea Fa].
  destruct (proj1 (proj2 (count_outcome limit " deletion" "(-)" stat))
              _ Hd) as [Ed Fd].
  repeat split; assumption.
Qed.

Lemma parse_raises (limit : nat) (raw stat : string) (mc : option Z)
    (e : exn) :
  _parse_diff_stats limit raw stat mc = Raise e ->
  e = digits_error /\ ~ counts_fit limit stat.
Proof.
  unfold _parse_diff_stats, counts_fit.
  change Re.insertions_re with (count_re " insertion" "(+)") in *.
  change Re.deletions_re with (count_re " deletion" "(-)") in *.
  pose proof (count_outcome limit " insertion" "(+)" stat) as Ci.
  pose proof (count_outcome limit " deletion" "(-)" stat) as Cd.
  cbv zeta in Ci, Cd.
  destruct (match Re.search (count_re " insertion" "(+)") stat with
            | Some g => int_of limit g
            | None => Ok 0%Z
            end) as [a|ea]; cbn [bind].
  - destruct (match Re.search (count_re " deletion" "(-)") stat with
              | Some g => int_of limit g
              | None => Ok 0%Z
              end) as [b|eb]; cbn [bind]; [discriminate|].
    intros H. injection H as <-.
    destruct (proj2 (proj2 Cd) eb eq_refl) as (-> & g & Hg & Hf).
    split; [reflexivity|]. intros [_ K]. exact (Hf (K g Hg)).
  - intros H. injection H as <-.
    destruct (proj2 (proj2 Ci) ea eq_refl) as (-> & g & Hg & Hf).
    split; [reflexivity|]. intros [K _]. exact (Hf (K g Hg)).
Qed.

(** The budget has no part in the files and the counts. *)
Lemma parse_any_budget (limit : nat) (raw stat : string)
    (mc mc' : option Z) (d : DiffSummary) :
  _parse_diff_stats limit raw stat mc = Ok d ->
  exists d', _parse_diff_stats limit raw stat mc' = Ok d' /\
             files d = files d' /\
             total_additions d = total_additions d' /\
             total_deletions d = total_deletions d'.
Proof.
  intros H. destruct (parse_counts limit raw stat mc d H) as (Ha & Hd & Hf).
  destruct (parse_returns limit raw stat mc' Hf) as [d' H'].
  exists d'. split; [exact H'|].
  destruct (parse_counts limit raw stat mc' d' H') as (Ha' & Hd' & _).
  rewrite (proj1 (IntFacts.parse_inv limit raw stat mc d H)).
  rewrite (proj1 (IntFacts.parse_inv limit raw stat mc' d' H')).
  repeat split; congruence.
Qed.

End SummaryFacts.

(** * Facts about the first match of a count pattern *)

Module FirstMatch.
Import Py Re Analyzer PyFacts JoinFacts ReFacts Spec.

Lemma append_eq_append (a b c d : string) :
  a ++ b = c ++ d ->
  (exists e, c = a ++ e /\ b = e ++ d) \/
  (exists e, a = c ++ e /\ d = e ++ b).
Proof.
  revert c. induction a as [|x a IH]; intros c H.
  - left. exists c. split; [reflexivity | exact H].
  - destruct c as [|y c].
    + right. exists (String x a). simpl in *. split; [reflexivity | now rewrite H].
    + simpl in H. injection H as -> H.
      destruct (IH c H) as [(e & -> & ->) | (e & -> & ->)].
      * left. now exists e.
      * right. now exists e.
Qed.

Lemma last_char_app_cons (a : string) (c : ascii) (b : string) :
  last_char (a ++ String c b) = last_char (String c b).
Proof.
  induction a as [|x a IH]; [reflexivity|].
  simpl append. rewrite <- IH.
  change (last_char (String x (a ++ String c b)))
    with (match a ++ String c b with
          | "" => Some x
          | String _ _ => last_char (a ++ String c b)
          end).
  now destruct a.
Qed.

Lemma last_char_digits (s : string) :
  s <> "" -> all_chars isdecimal s = true ->
  exists c, last_char s = Some c /\ isdecimal c = true.
Proof.
  induction s as [|x s IH]; [congruence|]. intros _ H. simpl in H.
  apply andb_true_iff in H. destruct H as [Hx Hs]. destruct s as [|y s].
  - now exists x.
  - destruct (IH ltac:(discriminate) Hs) as (c & Hc & Hd). now exists c.
Qed.

Lemma all_chars_app (p : ascii -> bool) (a b : string) :
  all_chars p (a ++ b) = all_chars p a && all_chars p b.
Proof.
  induction a as [|x a IH]; [reflexivity|]. simpl.
  now rewrite IH, andb_assoc.
Qed.

(** No match of the count pattern starts inside a text that holds no count
    phrase and does not end with a digit, when a digit follows the text. *)
Lemma no_match_inside (w sg a b tail : string) (d : ascii) :
  w <> "" -> no_digit (w ++ "s" ++ sg) = true ->
  ~ occurs (count_phrase w sg) (a ++ b) ->
  ends_with_digit (a ++ b) = false ->
  isdecimal d = true ->
  b <> "" ->
  match_here (count_re w sg) (b ++ String d tail) "" = None.
Proof.
  intros Hw Hnd Hocc Hend Hd Hb.
  destruct (match_here (count_re w sg) (b ++ String d tail) "") as [g|] eqn:E;
    [exfalso | reflexivity].
  unfold count_re in E.
  change (match_here [Digits1; Lit w; Opt "s"; Lit sg] (b ++ String d tail) "")
    with (digits_plus (fun g rest =>
            match_here [Lit w; Opt "s"; Lit sg] rest g) ""
            (b ++ String d tail)) in E.
  apply digits_plus_sound in E.
  destruct E as (ds & rest & Hne & Hds & Hsplit & Hk).
  apply tail_sound in Hk. destruct Hk as [_ [r Hr]].
  assert (HW : exists W, rest = W ++ r /\ W <> "" /\ no_digit W = true /\
                         count_phrase w sg (ds ++ W)).
  { unfold no_digit in *. rewrite !all_chars_app in Hnd.
    apply andb_true_iff in Hnd. destruct Hnd as [Hnw Hnd].
    apply andb_true_iff in Hnd. destruct Hnd as [Hns Hnsg].
    destruct Hr as [-> | ->].
    - exists (w ++ sg). repeat split.
      + now rewrite append_assoc.
      + destruct w; [congruence | discriminate].
      + now rewrite all_chars_app, Hnw, Hnsg.
      + exists ds. auto.
    - exists (w ++ "s" ++ sg). repeat split.
      + now rewrite !append_assoc.
      + destruct w; [congruence | discriminate].
      + now rewrite !all_chars_app, Hnw, Hns, Hnsg.
      + exists ds. auto. }
  destruct HW as (W & -> & HWne & HWnd & Hphrase).
  destruct (append_eq_append _ _ _ _ Hsplit) as [(e & He & Ht) | (e & He & Ht)].
  - (* the digits cover [b]: the text ends with a digit *)
    assert (Hbd : all_chars isdecimal b = true).
    { rewrite He, all_chars_app in Hds. now apply andb_true_iff in Hds. }
    destruct (last_char_digits b Hb Hbd) as (c & Hc & Hcd).
    unfold ends_with_digit in Hend. destruct b as [|x b]; [congruence|].
    rewrite last_char_app_cons, Hc, Hcd in Hend. discriminate.
  - (* the digits end inside [b] *)
    symmetry in Ht.
    destruct (append_eq_append _ _ _ _ Ht) as [(e' & He' & Hr') | (e' & He' & Hr')].
    + (* the phrase body runs into the digit that follows *)
      destruct e' as [|x e'].
      * apply Hocc. exists a, (ds ++ W), "". split; [|exact Hphrase].
        rewrite He, He'. now rewrite !append_assoc, !append_empty_r.
      * simpl in Hr'. injection Hr' as <- _.
        unfold no_digit in HWnd. rewrite He', all_chars_app in HWnd.
        apply andb_true_iff in HWnd. destruct HWnd as [_ HWnd].
        simpl in HWnd. rewrite Hd in HWnd. discriminate.
    + (* the phrase lies inside the text *)
      apply Hocc. exists a, (ds ++ W), e'. split; [|exact Hphrase].
      rewrite He, He'. now rewrite !append_assoc.
Qed.

Lemma search_skip (p : pattern) (pre tail : string) :
  (forall a b, pre = a ++ b -> b <> "" ->
               match_here p (b ++ tail) "" = None) ->
  search p (pre ++ tail) = search p tail.
Proof.
  induction pre as [|c pre IH]; intros H; [reflexivity|].
  simpl append. cbn [search].
  pose proof (H "" (String c pre) eq_refl ltac:(discriminate)) as H0.
  cbn [append] in H0. rewrite H0.
  apply IH. intros a b -> Hb. exact (H (String c a) b eq_refl Hb).
Qed.

(** [re.search] passes over a text that holds no count phrase and does not
    end with a digit, when a digit follows it. *)
Lemma search_after (w sg pre tail : string) (d : ascii) :
  w <> "" -> no_digit (w ++ "s" ++ sg) = true ->
  ~ occurs (count_phrase w sg) pre ->
  ends_with_digit pre = false ->
  isdecimal d = true ->
  search (count_re w sg) (pre ++ String d tail) =
  search (count_re w sg) (String d tail).
Proof.
  intros Hw Hnd Hocc Hend Hd. apply search_skip. intros a b -> Hb.
  now apply (no_match_inside w sg a b tail d).
Qed.

(** A phrase that ends with the character [c] does not reach into a text
    that does not hold [c]. *)
Lemma occurs_app_without (w sg' pre F : string) (c : ascii) :
  has_char c F = false ->
  ~ occurs (count_phrase w (sg' ++ chr c)) pre ->
  ~ occurs (count_phrase w (sg' ++ chr c)) (pre ++ F).
Proof.
  intros HF Hocc (x & sub & y & Heq & Hph).
  assert (Hbody : exists body, sub = body ++ chr c).
  { destruct Hph as (ds & _ & _ & [-> | ->]).
    - exists (ds ++ w ++ sg'). now rewrite !append_assoc.
    - exists (ds ++ w ++ "s" ++ sg'). now rewrite !append_assoc. }
  destruct Hbody as [body Hbody].
  assert (Heq' : pre ++ F = (x ++ body) ++ String c y).
  { rewrite Heq, Hbody. now rewrite !append_assoc. }
  destruct (append_eq_append _ _ _ _ Heq') as [(e & He & Hf) | (e & He & Hf)].
  - rewrite Hf, has_char_app, has_char_cons, Ascii.eqb_refl in HF.
    now rewrite orb_true_r in HF.
  - destruct e as [|z e].
    + simpl in Hf. rewrite <- Hf, has_char_cons, Ascii.eqb_refl in HF.
      discriminate.
    + simpl in Hf. injection Hf as <- _. apply Hocc.
      exists x, sub, e. split; [|exact Hph].
      rewrite He, Hbody. now rewrite !append_assoc.
Qed.

End FirstMatch.

(** * Facts about the status query *)

Module StatusFacts.
Import Py Analyzer PyFacts JoinFacts StatFacts SummaryFacts Spec.

Lemma untracked_line_lstrip (l : string) :
  untracked_line l -> untracked_line (lstrip l).
Proof.
  intros [-> | [p ->]]; [now left | right]. now exists p.
Qed.

Lemma untracked_line_rstrip (l : string) :
  untracked_line l -> untracked_line (rstrip l).
Proof.
  intros [-> | [p ->]]; [now left | right]. exists (rstrip p).
  change ("??" ++ p) with (String "?" (String "?" p)).
  now rewrite !rstrip_cons_nonspace.
Qed.

Lemma status_line_untracked (l : string) (st mo un : list string) :
  untracked_line l ->
  exists un', status_line (st, mo, un) l = Ok (st, mo, un').
Proof.
  intros [-> | [p ->]].
  - now exists un.
  - exists (un ++ [drop 3 ("??" ++ p)])%list. reflexivity.
Qed.

Lemma foldM_untracked (lines : list string) :
  Forall untracked_line lines ->
  forall st mo un,
  exists un', foldM status_line lines (st, mo, un) = Ok (st, mo, un').
Proof.
  induction 1 as [|l ls Hl _ IH]; intros st mo un.
  - now exists un.
  - destruct (status_line_untracked l st mo un Hl) as [un1 H1].
    destruct (IH st mo un1) as [un2 H2]. exists un2.
    cbn [foldM]. rewrite H1. exact H2.
Qed.

Lemma status_line_classifies (l : string) (st mo un : list string) :
  (2 <= String.length l)%nat ->
  status_line (st, mo, un) l =
  Ok ((st ++ map path_of (filter index_changed [l]))%list,
      (mo ++ map path_of (filter tree_modified [l]))%list,
      (un ++ map path_of (filter is_untracked [l]))%list).
Proof.
  destruct l as [|c0 [|c1 r]]; simpl String.length; try lia. intros _.
  unfold status_line. cbn [truthy negb take char_at String.get bind].
  rewrite str_in_chr. cbn [filter index_changed tree_modified String.get].
  unfold is_untracked. cbn [take].
  change (String.eqb (chr c1) "M") with
    (if Ascii.eqb c1 "M" then true else false).
  destruct (has_char c0 "MADRC"), (Ascii.eqb c1 "M"),
    (String.eqb (String c0 (String c1 "")) "??");
    cbn [map app]; rewrite ?app_nil_r; reflexivity.
Qed.

Lemma foldM_status_lines (lines : list string) :
  Forall (fun l => (2 <= String.length l)%nat) lines ->
  forall st mo un,
    foldM status_line lines (st, mo, un) =
    Ok ((st ++ map path_of (filter index_changed lines))%list,
        (mo ++ map path_of (filter tree_modified lines))%list,
        (un ++ map path_of (filter is_untracked lines))%list).
Proof.
  induction 1 as [|l ls Hl _ IH]; intros st mo un.
  - cbn. now rewrite !app_nil_r.
  - cbn [foldM]. rewrite (status_line_classifies l st mo un Hl).
    cbn [bind]. rewrite IH. cbn [filter].
    destruct (index_changed l), (tree_modified l), (is_untracked l);
      cbn [map app]; rewrite <- ?app_assoc, ?app_nil_r; reflexivity.
Qed.

Lemma rstrip_app_allws (a w : string) :
  allws w = true -> rstrip (a ++ w) = rstrip a.
Proof.
  intros Hw. induction a as [|c a IH].
  - simpl. now apply rstrip_allws.
  - simpl append. simpl rstrip. now rewrite IH.
Qed.

Lemma strip_app_allws (a w : string) :
  allws w = true -> strip (a ++ w) = strip a.
Proof.
  intros Hw. unfold strip. induction a as [|c a IH].
  - simpl. rewrite (proj1 (lstrip_allws w) Hw). reflexivity.
  - simpl. destruct (isspace c); [exact IH|].
    exact (rstrip_app_allws (String c a) w Hw).
Qed.

(** For porcelain output without white space at its start or before its
    final line feed, the status query classifies each line by its code. *)
Lemma get_repo_status_classifies (run : subprocess) (lines : list string)
  (b : string) :
  let text := String.concat (chr nl) lines in
  lines <> [] ->
  Forall (fun l => has_char nl l = false) lines ->
  Forall (fun l => (2 <= String.length l)%nat) lines ->
  strip text = text ->
  _run_git run ["status"; "--porcelain"] = Ok (text ++ chr nl) ->
  get_current_branch run = Ok b ->
  get_repo_status run =
  Ok {| staged := map path_of (filter index_changed lines);
        modified := map path_of (filter tree_modified lines);
        untracked := map path_of (filter is_untracked lines);
        is_dirty := nonempty (filter index_changed lines) ||
                    nonempty (filter tree_modified lines);
        branch := b |}.
Proof.
  intros text Hne Hnl Hlen Hstrip Hrun Hb. unfold get_repo_status.
  rewrite Hrun. cbn [bind].
  rewrite (strip_app_allws text (chr nl) eq_refl), Hstrip.
  unfold text. rewrite (split_concat nl lines Hne Hnl).
  rewrite (foldM_status_lines lines Hlen). cbn [bind app]. rewrite Hb.
  cbn [bind]. do 2 f_equal.
  destruct (filter index_changed lines), (filter tree_modified lines);
    reflexivity.
Qed.


End StatusFacts.

(** * The claims *)

Import Py Analyzer Config Spec.
Import PyFacts StatFacts ReFacts JoinFacts CommitFacts.
Import DiffFacts RunFacts SummaryFacts FirstMatch StatusFacts.

(** ** The status query *)

(** The end-to-end scenario of the status query: one staged and one
    untracked path. *)
Lemma status_staged_and_untracked :
  get_repo_status
    (git_prints ("M  file1.py" ++ chr nl ++ "?? file2.py" ++ chr nl)
                ("main" ++ chr nl)) =
  Ok {| staged := ["file1.py"]; modified := []; untracked := ["file2.py"];
        is_dirty := true; branch := "main" |}.
Proof. vm_compute. reflexivity. Qed.

(** C1 fails on the code.  The porcelain line [ M app.py] has a blank index
    column and [M] in the working-tree column, so the claim puts the path
    [app.py] in [modified] and nothing in [staged]; the query strips the
    whole output first, which removes the blank column of the first line,
    and returns the mangled path [pp.py] as staged and nothing as
    modified. *)
Theorem status_first_line_blank_index :
  let out := " M app.py" ++ chr nl in
  index_changed " M app.py" = false /\
  tree_modified " M app.py" = true /\
  path_of " M app.py" = "app.py" /\
  get_repo_status (git_prints out ("main" ++ chr nl)) =
  Ok {| staged := ["pp.py"]; modified := []; untracked := [];
        is_dirty := true; branch := "main" |}.
Proof. cbv zeta. repeat split; vm_compute; reflexivity. Qed.

(** C2. In every status the query returns, [is_dirty] is true exactly when
    [staged] or [modified] is non-empty.  When the status output consists of
    untracked lines only (each line is blank or starts with the code [??]),
    the query returns a status with nothing staged, nothing modified and
    [is_dirty] false. *)
Theorem is_dirty_iff (run : subprocess) :
  (forall r, get_repo_status run = Ok r ->
             (is_dirty r = true <-> staged r <> [] \/ modified r <> [])) /\
  (forall out b,
     _run_git run ["status"; "--porcelain"] = Ok out ->
     get_current_branch run = Ok b ->
     Forall untracked_line (split nl out) ->
     exists u, get_repo_status run =
               Ok {| staged := []; modified := []; untracked := u;
                     is_dirty := false; branch := b |}).
Proof.
  split.
  - intros r. unfold get_repo_status.
    destruct (_run_git run ["status"; "--porcelain"]) as [out|e];
      [|discriminate]. cbn [bind].
    destruct (foldM status_line (split nl (strip out)) ([], [], []))
      as [[[st mo] un]|e]; [|discriminate]. cbn [bind].
    destruct (get_current_branch run) as [b|e]; [|discriminate]. cbn [bind].
    intros H. injection H as <-. cbn [is_dirty staged modified].
    destruct st as [|x st], mo as [|y mo]; cbn; split; intros H;
      try reflexivity; try discriminate H;
      try (left; discriminate); try (right; discriminate).
    destruct H as [H | H]; now elim H.
  - intros out b Hout Hb Hlines. unfold get_repo_status. rewrite Hout.
    cbn [bind].
    pose proof (Forall_split_strip nl eq_refl untracked_line
                  untracked_line_lstrip untracked_line_rstrip out Hlines)
      as Hs.
    destruct (foldM_untracked _ Hs [] [] []) as [u Hu]. rewrite Hu, Hb.
    now exists u.
Qed.

(** Two untracked paths and nothing else: the status is not dirty. *)
Lemma is_dirty_iff_witness :
  exists u,
    get_repo_status
      (git_prints ("?? notes.txt" ++ chr nl ++ "?? build/" ++ chr nl)
                  ("main" ++ chr nl)) =
    Ok {| staged := []; modified := []; untracked := u;
          is_dirty := false; branch := "main" |}.
Proof.
  apply (proj2 (is_dirty_iff _)
           ("?? notes.txt" ++ chr nl ++ "?? build/" ++ chr nl) "main");
    [reflexivity | reflexivity |].
  cbn. repeat (apply Forall_cons;
               [first [ now left | right; eexists; reflexivity ] |]).
  apply Forall_nil.
Defined.

(** ** The diff-stat summary and the diff body *)




(** C4. For a positive budget [n], the diff text of the summary that
    [_parse_diff_stats] returns is the body itself when the body has at
    most [n] characters (equality included), and otherwise the first [n]
    characters of the body followed by the truncation marker, [n] plus the
    length of the marker characters in all.  A summary is returned whenever
    [int] converts the counts of the statistics.  A body of 9000 characters
    under a budget of 8000 is the second case. *)
Theorem truncation_by_budget (max_str_digits : nat) (raw stat : string)
  (n : Z) :
  (0 < n)%Z ->
  (counts_fit max_str_digits stat ->
   exists d, _parse_diff_stats max_str_digits raw stat (Some n) = Ok d) /\
  forall d,
    _parse_diff_stats max_str_digits raw stat (Some n) = Ok d ->
    let text := raw_diff d in
    ((Z.of_nat (String.length raw) <= n)%Z -> text = raw) /\
    ((n < Z.of_nat (String.length raw))%Z ->
     text = substring 0 (Z.to_nat n) raw ++ truncation_marker /\
     String.length text =
       (Z.to_nat n + String.length truncation_marker)%nat).
Proof.
  intros Hn. split; [apply parse_returns|]. intros d Hd. cbv zeta.
  rewrite (proj2 (proj2 (proj2 (IntFacts.parse_inv _ _ _ _ _ Hd)))).
  destruct (Z.eqb_spec n 0) as [E|_]; [lia|]. cbn [negb andb].
  split.
  - intros Hle. destruct (Z.gtb_spec (Z.of_nat (String.length raw)) n);
      [lia | reflexivity].
  - intros Hlt. destruct (Z.gtb_spec (Z.of_nat (String.length raw)) n);
      [|lia].
    unfold slice_to. destruct (Z.ltb_spec n 0); [lia|].
    rewrite take_substring. split; [reflexivity|].
    rewrite length_append, <- take_substring, length_take; [reflexivity | lia].
Qed.

(** A body of 9000 characters is cut to 8000 and marked; a body of exactly
    8000 characters is returned as it is. *)
Lemma truncation_by_budget_witness :
  (exists d,
     _parse_diff_stats 4300 (replicate 9000 "x") "" (Some 8000%Z) = Ok d /\
     raw_diff d = replicate 8000 "x" ++ truncation_marker) /\
  (exists d,
     _parse_diff_stats 4300 (replicate 8000 "x") "" (Some 8000%Z) = Ok d /\
     raw_diff d = replicate 8000 "x").
Proof.
  assert (Hfit : counts_fit 4300 "") by (split; intros g Hg; discriminate Hg).
  split.
  - destruct (truncation_by_budget 4300 (replicate 9000 "x") "" 8000 eq_refl)
      as [R H].
    destruct (R Hfit) as [d Hd]. exists d. split; [exact Hd|].
    destruct (proj2 (H d Hd) eq_refl) as [-> _]. vm_compute. reflexivity.
  - destruct (truncation_by_budget 4300 (replicate 8000 "x") "" 8000 eq_refl)
      as [R H].
    destruct (R Hfit) as [d Hd]. exists d. split; [exact Hd|].
    apply (proj1 (H d Hd)). vm_compute. discriminate.
Defined.

(** C10. A budget of zero, like no budget at all, leaves the diff body as
    it is, whatever its length: the diff text of the summary that
    [_parse_diff_stats] returns is the body.  A summary is returned
    whenever [int] converts the counts of the statistics. *)
Theorem zero_budget_keeps_body (max_str_digits : nat) (raw stat : string) :
  (counts_fit max_str_digits stat ->
   exists d0 d1,
     _parse_diff_stats max_str_digits raw stat (Some 0%Z) = Ok d0 /\
     _parse_diff_stats max_str_digits raw stat None = Ok d1) /\
  (forall d,
     _parse_diff_stats max_str_digits raw stat (Some 0%Z) = Ok d ->
     raw_diff d = raw) /\
  (forall d,
     _parse_diff_stats max_str_digits raw stat None = Ok d ->
     raw_diff d = raw).
Proof.
  split; [|split].
  - intros Hfit.
    destruct (parse_returns max_str_digits raw stat (Some 0%Z) Hfit)
      as [d0 H0].
    destruct (parse_returns max_str_digits raw stat None Hfit) as [d1 H1].
    now exists d0, d1.
  - intros d Hd.
    now rewrite (proj2 (proj2 (proj2 (IntFacts.parse_inv _ _ _ _ _ Hd)))).
  - intros d Hd.
    now rewrite (proj2 (proj2 (proj2 (IntFacts.parse_inv _ _ _ _ _ Hd)))).
Qed.

(** A body of ten characters under the budget 0 and under none. *)
Lemma zero_budget_keeps_body_witness :
  (exists d, _parse_diff_stats 4300 "0123456789" "" (Some 0%Z) = Ok d /\
             raw_diff d = "0123456789") /\
  (exists d, _parse_diff_stats 4300 "0123456789" "" None = Ok d /\
             raw_diff d = "0123456789").
Proof.
  assert (Hfit : counts_fit 4300 "") by (split; intros g Hg; discriminate Hg).
  destruct (zero_budget_keeps_body 4300 "0123456789" "") as (R & H0 & H1).
  destruct (R Hfit) as (d0 & d1 & E0 & E1).
  split; [exists d0 | exists d1]; split; auto.
Defined.

(** ** The commit log *)

Section CommitLog.
Variable datetime : Type.
Variable fromisoformat : string -> option datetime.
Variable now : nat -> datetime.

(** C5, amended.  For a log text made of fragments joined by the record
    sentinel, each fragment made of fields joined by the field sentinel: the
    query returns one record for each fragment of five fields or more, in
    order, whose author and email are the second and third field exactly,
    whose hash is the first field without its leading white space, and whose
    subject is the fifth field, without its trailing white space when it is
    the last field of the fragment; a fragment of four fields or fewer gives
    no record, so a text without a fragment of five fields gives the empty
    list and no error.  When no first field starts and no fifth field ends
    with white space, all four are the input fields exactly. *)
Theorem log_fields_roundtrip (run : subprocess) (days : Z)
  (frags : list (list string)) :
  Forall (Forall clean_field) frags ->
  _run_git run (log_args days) = Ok (log_text frags) ->
  exists commits,
    get_recent_commits datetime fromisoformat now run days = Ok commits /\
    map summary commits = flat_map expected_fields frags /\
    (Forall (fun fr => (List.length fr < 5)%nat) frags -> commits = []) /\
    (Forall (fun fr => lstrip (nth 0 fr "") = nth 0 fr "" /\
                       rstrip (nth 4 fr "") = nth 4 fr "") frags ->
     map summary commits = flat_map exact_fields frags).
Proof.
  intros Hclean Hrun.
  rewrite (get_recent_commits_fold _ _ _ run days _ Hrun).
  eexists. split; [reflexivity|].
  assert (Hsum :
    map summary
      (fst (fold_left (commit_entry datetime fromisoformat now)
              (split SOH (log_text frags)) ([], 0%nat))) =
    flat_map expected_fields frags).
  { destruct frags as [|fr frags'] eqn:E; [reflexivity|]. rewrite <- E in *.
    rewrite split_log_text; [|subst; discriminate | assumption].
    apply (summary_fold datetime fromisoformat now frags).
    eapply Forall_impl; [|exact Hclean]. intros f Hf.
    eapply Forall_impl; [|exact Hf]. now intros x [Hx _]. }
  split; [exact Hsum | split].
  - intros Hshort. apply (map_eq_nil summary). rewrite Hsum.
    clear -Hshort. induction Hshort as [|fr frs Hfr _ IH]; [reflexivity|].
    cbn [flat_map]. rewrite IH, app_nil_r. unfold expected_fields.
    destruct (Nat.leb_spec 5 (List.length fr)); [lia | reflexivity].
  - intros Htrim. rewrite Hsum. clear -Htrim.
    induction Htrim as [|fr frs [Hl Hr] _ IH]; [reflexivity|].
    cbn [flat_map]. rewrite IH. f_equal.
    unfold expected_fields, exact_fields.
    destruct (5 <=? List.length fr)%nat; [|reflexivity].
    rewrite Hl, Hr. now destruct (List.length fr =? 5)%nat.
Qed.


End CommitLog.

(** C5, as the claim states it, fails: in a log of three records shaped as
    [git log] prints them, the hash of the second record is its first field
    without the line feed that separates the records, and the subject of a
    record of exactly five fields loses its trailing space. *)
Lemma log_fields_not_exact :
  let frags :=
    [ ["a1b2"; "Ann"; "ann@example.org"; "2024-05-02 10:00:00 +0200";
       "Add parser"; ""; ""];
      [chr nl ++ "c3d4"; "Bob"; "bob@example.org";
       "2024-05-01 09:00:00 +0200"; "Fix typo"; "body"; ""];
      [chr nl ++ "e5f6"; "Cy"; "cy@example.org"; "yesterday"; "wip "] ] in
  Forall (Forall clean_field) frags /\
  flat_map exact_fields frags =
    [ ("a1b2", "Ann", "ann@example.org", "Add parser");
      (chr nl ++ "c3d4", "Bob", "bob@example.org", "Fix typo");
      (chr nl ++ "e5f6", "Cy", "cy@example.org", "wip ") ] /\
  exists commits,
    get_recent_commits nat (fun _ => None) (fun k => k)
      (git_prints "" (log_text frags)) 7 = Ok commits /\
    map summary commits =
      [ ("a1b2", "Ann", "ann@example.org", "Add parser");
        ("c3d4", "Bob", "bob@example.org", "Fix typo");
        ("e5f6", "Cy", "cy@example.org", "wip") ] /\
    map summary commits <> flat_map exact_fields frags.
Proof.
  cbv zeta. split; [|split; [reflexivity|]].
  - repeat (apply Forall_cons || apply Forall_nil || (split; reflexivity)).
  - eexists. split; [reflexivity|]. split; [reflexivity|]. discriminate.
Qed.

(** A record of seven fields is returned, one of four fields is dropped. *)
Lemma log_fields_roundtrip_witness :
  let frags :=
    [ ["a1b2"; "Ann"; "ann@example.org"; "2024-05-02 10:00:00 +0200";
       "Add parser"; ""; ""];
      [chr nl ++ "c3d4"; "Bob"; "bob@example.org"; "not a date"];
      [chr nl] ] in
  exists commits,
    get_recent_commits nat (fun _ => None) (fun k => k)
      (git_prints "" (log_text frags)) 7 = Ok commits /\
    map summary commits =
      [ ("a1b2", "Ann", "ann@example.org", "Add parser") ].
Proof.
  intros frags.
  assert (Hclean : Forall (Forall clean_field) frags)
    by repeat (apply Forall_cons || apply Forall_nil || (split; reflexivity)).
  destruct (log_fields_roundtrip nat (fun _ => None) (fun k => k)
              (git_prints "" (log_text frags)) 7 frags Hclean eq_refl)
    as (commits & Hget & Hsum & _).
  exists commits. split; [exact Hget | exact Hsum].
Defined.


(** ** The command runner *)

(** C6, as the claim states it, fails: a process that exits with status 0
    and writes the fatal marker to standard error makes the runner return
    the captured standard output. *)
Lemma run_git_fatal_marker_exit_zero :
  let p := {| returncode := 0; stdout := "partial";
              stderr := "fatal: bad revision" |} in
  contains_text "fatal:" (stderr p) /\
  _run_git (fun _ => Completed p) ["log"] = Ok "partial".
Proof.
  split; [|reflexivity]. now exists "", " bad revision".
Qed.

(** C6, amended.  When the process ran: with a non-zero exit status and the
    fatal marker on standard error the runner raises the error that carries
    the stripped standard error; with a non-zero exit status and no marker
    it returns the captured standard output; with exit status 0 it returns
    the captured standard output whatever standard error holds. *)
Theorem run_git_outcome (run : subprocess) (args : list string)
  (p : CompletedProcess) :
  run ("git" :: args) = Completed p ->
  ((returncode p <> 0)%Z -> contains_text "fatal:" (stderr p) ->
   _run_git run args =
     Raise (RuntimeError ("Git error: " ++ strip (stderr p)))) /\
  ((returncode p <> 0)%Z -> ~ contains_text "fatal:" (stderr p) ->
   _run_git run args = Ok (stdout p)) /\
  (returncode p = 0%Z -> _run_git run args = Ok (stdout p)).
Proof.
  intros Hrun. unfold _run_git. rewrite Hrun. repeat split.
  - intros Hrc Hin. destruct (Z.eqb_spec (returncode p) 0); [contradiction|].
    pose proof (proj2 (str_in_spec _ _) Hin) as Hb. rewrite Hb.
    destruct (stderr p) eqn:E; [discriminate Hb | reflexivity].
  - intros Hrc Hin. destruct (str_in "fatal:" (stderr p)) eqn:Hb.
    + exfalso. apply Hin. now apply str_in_spec.
    + now destruct (negb (returncode p =? 0)%Z && truthy (stderr p)).
  - intros ->. reflexivity.
Qed.

(** The three outcomes of a process that ran. *)
Lemma run_git_outcome_witness :
  let failed := {| returncode := 128; stdout := "";
                   stderr := "fatal: not a git repository " |} in
  let warned := {| returncode := 1; stdout := "diff";
                   stderr := "warning: CRLF" |} in
  let clean := {| returncode := 0; stdout := "main";
                  stderr := "fatal: ignored" |} in
  _run_git (fun _ => Completed failed) ["status"; "--porcelain"] =
    Raise (RuntimeError "Git error: fatal: not a git repository") /\
  _run_git (fun _ => Completed warned) ["diff"; "HEAD"] = Ok "diff" /\
  _run_git (fun _ => Completed clean) ["branch"; "--show-current"] =
    Ok "main".
Proof.
  intros failed warned clean. split; [|split].
  - refine (proj1 (run_git_outcome (fun _ => Completed failed) _ failed
                     eq_refl) _ _); [discriminate|].
    now exists "", " not a git repository ".
  - refine (proj1 (proj2 (run_git_outcome (fun _ => Completed warned) _
                            warned eq_refl)) _ _); [discriminate|].
    intros H. apply str_in_spec in H. discriminate H.
  - exact (proj2 (proj2 (run_git_outcome (fun _ => Completed clean) _
                           clean eq_refl)) eq_refl).
Defined.

(** ** Provider selection *)

(** C8 fails on the code.  With the preference [gemini] and only the
    OpenRouter credential set, a credential is present, so the claim has
    the selection succeed; the selection, and [validate] with it, raise the
    error whose message says that no key is configured and asks for one of
    the two keys, of which one is set. *)
Lemma provider_error_with_credential :
  let c := {| gemini_api_key := "";
              openrouter_api_key := "sk-or-v1-0";
              default_days := 7;
              max_diff_chars := 8000;
              gemini_model := "gemini-flash-latest";
              openrouter_model := "xiaomi/mimo-v2-flash:free";
              preferred_provider := "gemini";
              slack_webhook_url := "" |} in
  openrouter_api_key c <> "" /\
  get_active_provider c = Raise (ValueError no_provider_message) /\
  validate c = Raise (ValueError no_provider_message).
Proof. split; [discriminate | split; reflexivity]. Qed.

(** The selection as the code makes it.  It raises exactly when the
    preference is automatic and no backend has a credential, or the
    preference names a backend whose own credential is missing, or the
    preference is none of [auto], [gemini], [openrouter]; the error is
    always the no-provider-configured one, and a provider that is returned
    has its credential set. *)
Theorem provider_selection_outcome (c : Config) :
  ((exists e, get_active_provider c = Raise e) <->
   (preferred_provider c = "auto" /\
    gemini_api_key c = "" /\ openrouter_api_key c = "") \/
   (preferred_provider c = "gemini" /\ gemini_api_key c = "") \/
   (preferred_provider c = "openrouter" /\ openrouter_api_key c = "") \/
   (preferred_provider c <> "auto" /\ preferred_provider c <> "gemini" /\
    preferred_provider c <> "openrouter")) /\
  (forall e, get_active_provider c = Raise e ->
             e = ValueError no_provider_message) /\
  (get_active_provider c = Ok GEMINI -> gemini_api_key c <> "") /\
  (get_active_provider c = Ok OPENROUTER -> openrouter_api_key c <> "").
Proof.
  assert (Hraise : forall (A : Type) (x : A) (e : exn), Ok x <> Raise e)
    by discriminate.
  unfold get_active_provider.
  destruct (String.eqb_spec (preferred_provider c) "gemini") as [Eg|Ng];
  destruct (String.eqb_spec (preferred_provider c) "openrouter") as [Eo|No];
  destruct (String.eqb_spec (preferred_provider c) "auto") as [Ea|Na];
  try congruence;
  destruct (gemini_api_key c) as [|g gk];
  destruct (openrouter_api_key c) as [|o ok]; cbn [truthy andb];
  (split; [split; [intros [e He]; try discriminate He; tauto
                  | intros H; try (eexists; reflexivity);
                    exfalso; intuition congruence]
          | repeat split; intros; congruence]).
Qed.

(** The preference [openrouter] without its credential: selection raises,
    although the Gemini credential is set. *)
Lemma provider_selection_outcome_witness :
  let c := {| gemini_api_key := "AIza-0";
              openrouter_api_key := "";
              default_days := 7;
              max_diff_chars := 8000;
              gemini_model := "gemini-flash-latest";
              openrouter_model := "xiaomi/mimo-v2-flash:free";
              preferred_provider := "openrouter";
              slack_webhook_url := "" |} in
  exists e, get_active_provider c = Raise e.
Proof.
  intros c. apply (proj1 (provider_selection_outcome c)).
  right. right. left. split; reflexivity.
Defined.

(** C9. Under the automatic preference, provider selection returns
    OpenRouter when both credentials are set, and the one backend whose
    credential is set when only one is. *)
Theorem auto_selection (c : Config) :
  preferred_provider c = "auto" ->
  (openrouter_api_key c <> "" -> gemini_api_key c <> "" ->
   get_active_provider c = Ok OPENROUTER) /\
  (openrouter_api_key c <> "" -> gemini_api_key c = "" ->
   get_active_provider c = Ok OPENROUTER) /\
  (openrouter_api_key c = "" -> gemini_api_key c <> "" ->
   get_active_provider c = Ok GEMINI).
Proof.
  intros Ha. unfold get_active_provider. rewrite Ha. cbn [String.eqb].
  destruct (gemini_api_key c) as [|g gk];
  destruct (openrouter_api_key c) as [|o ok];
    repeat split; intros; try congruence; reflexivity.
Qed.

(** Both credentials set, and the Gemini credential alone. *)
Lemma auto_selection_witness :
  let both := {| gemini_api_key := "AIza-0";
                 openrouter_api_key := "sk-or-v1-0";
                 default_days := 7;
                 max_diff_chars := 8000;
                 gemini_model := "gemini-flash-latest";
                 openrouter_model := "xiaomi/mimo-v2-flash:free";
                 preferred_provider := "auto";
                 slack_webhook_url := "" |} in
  let gemini_only := {| gemini_api_key := "AIza-0";
                        openrouter_api_key := "";
                        default_days := 7;
                        max_diff_chars := 8000;
                        gemini_model := "gemini-flash-latest";
                        openrouter_model := "xiaomi/mimo-v2-flash:free";
                        preferred_provider := "auto";
                        slack_webhook_url := "" |} in
  get_active_provider both = Ok OPENROUTER /\
  get_active_provider gemini_only = Ok GEMINI.
Proof.
  intros both gemini_only. split.
  - apply (proj1 (auto_selection both eq_refl)); discriminate.
  - apply (proj2 (proj2 (auto_selection gemini_only eq_refl)));
      [reflexivity | discriminate].
Defined.

(** * Facts for the rest of the code *)

Module MoreFacts.
Import Py PyList Analyzer PyFacts JoinFacts StatFacts CommitFacts DiffFacts
  StatusFacts Spec.

Lemma length_take_le (n : nat) (s : string) :
  (String.length (take n s) <= n)%nat.
Proof.
  revert s. induction n as [|n IH]; intros [|c s]; simpl; try lia.
  specialize (IH s). lia.
Qed.

Lemma take_whole (n : nat) (s : string) :
  (String.length s <= n)%nat -> take n s = s.
Proof.
  revert s. induction n as [|n IH]; intros [|c s]; simpl; intros H;
    try reflexivity; try lia. rewrite IH; [reflexivity | lia].
Qed.

(** The text a budget [n] leaves of [body] in [_parse_diff_stats] and in
    [get_commit_diff]. *)
Lemma cut_positive (body : string) (n : Z) :
  (0 < n)%Z ->
  (if negb (n =? 0)%Z && (Z.of_nat (String.length body) >? n)%Z
   then slice_to n body ++ truncation_marker else body) =
  (if (Z.of_nat (String.length body) <=? n)%Z then body
   else substring 0 (Z.to_nat n) body ++ truncation_marker).
Proof.
  intros Hn. destruct (Z.eqb_spec n 0); [lia|]. cbn [negb andb].
  destruct (Z.gtb_spec (Z.of_nat (String.length body)) n),
    (Z.leb_spec (Z.of_nat (String.length body)) n); try lia; [|reflexivity].
  unfold slice_to. destruct (Z.ltb_spec n 0); [lia|].
  now rewrite take_substring.
Qed.

Lemma cut_negative (body : string) (n : Z) :
  (n < 0)%Z ->
  (if negb (n =? 0)%Z && (Z.of_nat (String.length body) >? n)%Z
   then slice_to n body ++ truncation_marker else body) =
  substring 0 (String.length body - Z.to_nat (- n)) body
    ++ truncation_marker.
Proof.
  intros Hn. destruct (Z.eqb_spec n 0); [lia|]. cbn [negb andb].
  destruct (Z.gtb_spec (Z.of_nat (String.length body)) n); [|lia].
  unfold slice_to. destruct (Z.ltb_spec n 0); [|lia].
  rewrite take_substring. do 2 f_equal. lia.
Qed.

Lemma length_cut (body : string) (n : Z) :
  (0 < n)%Z ->
  (String.length
     (if (Z.of_nat (String.length body) <=? n)%Z then body
      else substring 0 (Z.to_nat n) body ++ truncation_marker)
   <= Z.to_nat n + String.length truncation_marker)%nat.
Proof.
  intros Hn. destruct (Z.leb_spec (Z.of_nat (String.length body)) n).
  - lia.
  - rewrite length_append, <- take_substring.
    pose proof (length_take_le (Z.to_nat n) body). lia.
Qed.

End MoreFacts.

Import Py PyList Analyzer Queries Spec PyFacts MoreFacts DiffFacts.

(** X1. On the patch that [git show] prints for a commit, [get_commit_diff]
    returns the patch itself when no budget or the budget 0 is given or the
    patch fits a positive budget [n], and the first [n] characters followed
    by the truncation marker otherwise; the text returned is never more than
    the marker longer than a positive budget. *)
Theorem get_commit_diff_budget (run : subprocess) (commit_hash out : string) :
  _run_git run ["show"; commit_hash; "--pretty=format:"; "--patch"] = Ok out ->
  get_commit_diff run commit_hash None = Ok out /\
  get_commit_diff run commit_hash (Some 0%Z) = Ok out /\
  forall n, (0 < n)%Z ->
    exists text,
      get_commit_diff run commit_hash (Some n) = Ok text /\
      ((Z.of_nat (String.length out) <= n)%Z -> text = out) /\
      ((n < Z.of_nat (String.length out))%Z ->
       text = substring 0 (Z.to_nat n) out ++ truncation_marker) /\
      (String.length text
       <= Z.to_nat n + String.length truncation_marker)%nat.
Proof.
  intros Hrun. unfold get_commit_diff. rewrite Hrun. cbn [bind].
  split; [reflexivity | split; [reflexivity|]].
  intros n Hn.
  exists (if (Z.of_nat (String.length out) <=? n)%Z then out
          else substring 0 (Z.to_nat n) out ++ truncation_marker).
  split.
  - rewrite <- (cut_positive out n Hn).
    now destruct (negb (n =? 0)%Z && (Z.of_nat (String.length out) >? n)%Z).
  - split; [|split].
    + intros H. destruct (Z.leb_spec (Z.of_nat (String.length out)) n);
        [reflexivity | lia].
    + intros H. destruct (Z.leb_spec (Z.of_nat (String.length out)) n);
        [lia | reflexivity].
    + now apply length_cut.
Qed.

(** A patch of ten characters under a budget of four. *)
Lemma get_commit_diff_budget_witness :
  get_commit_diff (git_prints "" "0123456789") "HEAD" (Some 4%Z) =
  Ok ("0123" ++ truncation_marker).
Proof.
  destruct (get_commit_diff_budget (git_prints "" "0123456789") "HEAD"
              "0123456789" eq_refl) as (_ & _ & H).
  destruct (H 4%Z eq_refl) as (text & Hget & _ & Hcut & _).
  rewrite Hget, (Hcut eq_refl). reflexivity.
Defined.

(** X2. A negative budget [n] cuts every text, also one that is shorter
    than any budget: the summary [_parse_diff_stats] returns and
    [get_commit_diff] hold the text without its last [-n] characters
    (nothing of a text that short), followed by the truncation marker.  A
    summary is returned whenever [int] converts the counts of the
    statistics. *)
Theorem negative_budget_always_cuts (max_str_digits : nat)
  (run : subprocess) (commit_hash raw stat out : string) (n : Z) :
  (n < 0)%Z ->
  _run_git run ["show"; commit_hash; "--pretty=format:"; "--patch"] = Ok out ->
  (counts_fit max_str_digits stat ->
   exists d, _parse_diff_stats max_str_digits raw stat (Some n) = Ok d) /\
  (forall d,
     _parse_diff_stats max_str_digits raw stat (Some n) = Ok d ->
     raw_diff d =
       substring 0 (String.length raw - Z.to_nat (- n)) raw
         ++ truncation_marker) /\
  get_commit_diff run commit_hash (Some n) =
    Ok (substring 0 (String.length out - Z.to_nat (- n)) out
          ++ truncation_marker).
Proof.
  intros Hn Hrun. split; [apply SummaryFacts.parse_returns | split].
  - intros d Hd.
    rewrite (proj2 (proj2 (proj2 (IntFacts.parse_inv _ _ _ _ _ Hd)))).
    now apply cut_negative.
  - unfold get_commit_diff. rewrite Hrun. cbn [bind].
    rewrite <- (cut_negative out n Hn).
    now destruct (negb (n =? 0)%Z && (Z.of_nat (String.length out) >? n)%Z).
Qed.

(** The budget -2 on a body of six characters and on an empty patch. *)
Lemma negative_budget_always_cuts_witness :
  (exists d,
     _parse_diff_stats 4300 "abcdef" "" (Some (-2)%Z) = Ok d /\
     raw_diff d = "abcd" ++ truncation_marker) /\
  get_commit_diff (git_prints "" "") "HEAD" (Some (-2)%Z) =
    Ok truncation_marker.
Proof.
  destruct (negative_budget_always_cuts 4300 (git_prints "" "") "HEAD"
              "abcdef" "" "" (-2)%Z eq_refl eq_refl) as (R & H & G).
  split; [|exact G].
  destruct (R ltac:(split; intros g Hg; discriminate Hg)) as [d Hd].
  exists d. split; [exact Hd | exact (H d Hd)].
Defined.

(** X3. When [get_uncommitted_diff] or [get_staged_diff] returns a summary
    under a positive budget [n], the diff text of the summary is at most the
    truncation marker longer than [n], and the query without a budget
    returns a summary with the same files and the same two counts: the
    budget touches the diff text only. *)
Theorem diff_queries_budget (max_str_digits : nat) (run : subprocess)
  (n : Z) :
  (0 < n)%Z ->
  (forall d, get_uncommitted_diff max_str_digits run (Some n) = Ok d ->
     (String.length (raw_diff d)
      <= Z.to_nat n + String.length truncation_marker)%nat /\
     exists d0, get_uncommitted_diff max_str_digits run None = Ok d0 /\
                files d = files d0 /\
                total_additions d = total_additions d0 /\
                total_deletions d = total_deletions d0) /\
  (forall d, get_staged_diff max_str_digits run (Some n) = Ok d ->
     (String.length (raw_diff d)
      <= Z.to_nat n + String.length truncation_marker)%nat /\
     exists d0, get_staged_diff max_str_digits run None = Ok d0 /\
                files d = files d0 /\
                total_additions d = total_additions d0 /\
                total_deletions d = total_deletions d0).
Proof.
  intros Hn.
  assert (Hparse : forall raw stat d,
    _parse_diff_stats max_str_digits raw stat (Some n) = Ok d ->
    (String.length (raw_diff d)
     <= Z.to_nat n + String.length truncation_marker)%nat).
  { intros raw stat d Hd.
    rewrite (proj2 (proj2 (proj2 (IntFacts.parse_inv _ _ _ _ _ Hd)))).
    rewrite (cut_positive raw n Hn). now apply length_cut. }
  unfold get_uncommitted_diff, get_staged_diff. split; intros d.
  - destruct (_run_git run ["diff"; "HEAD"]) as [raw|]; [|discriminate].
    destruct (_run_git run ["diff"; "--stat"; "HEAD"]) as [stat|];
      [|discriminate].
    cbn [bind]. intros H. split; [exact (Hparse raw stat d H)|].
    exact (SummaryFacts.parse_any_budget _ _ _ _ None d H).
  - destruct (_run_git run ["diff"; "--cached"]) as [raw|]; [|discriminate].
    destruct (_run_git run ["diff"; "--stat"; "--cached"]) as [stat|];
      [|discriminate].
    cbn [bind]. intros H. split; [exact (Hparse raw stat d H)|].
    exact (SummaryFacts.parse_any_budget _ _ _ _ None d H).
Qed.

(** A diff of ten characters under a budget of four: the text returned has
    at most 4 + 17 characters. *)
Lemma diff_queries_budget_witness :
  exists d,
    get_staged_diff 4300 (git_prints "" "0123456789") (Some 4%Z) = Ok d /\
    (String.length (raw_diff d) <= 21)%nat.
Proof.
  eexists. split; [vm_compute; reflexivity|].
  exact (proj1 (proj2 (diff_queries_budget 4300
                         (git_prints "" "0123456789") 4%Z eq_refl)
                 _ eq_refl)).
Defined.

(** * The last activity and the commit count *)

Module QueryFacts.
Import Py PyList Analyzer PyFacts JoinFacts StatFacts CommitFacts StatusFacts
  Spec.

Lemma replace_first_app (a b : ascii) (d r : string) :
  has_char a d = false ->
  replace_first a b (d ++ String a r) = d ++ String b r.
Proof.
  induction d as [|c d IH]; simpl.
  - intros _. now rewrite Ascii.eqb_refl.
  - rewrite has_char_cons. intros H. apply orb_false_iff in H.
    destruct H as [Hc Hd]. now rewrite Hc, (IH Hd).
Qed.

Lemma remove_all_app (a : ascii) (x y : string) :
  remove_all a (x ++ y) = remove_all a x ++ remove_all a y.
Proof.
  induction x as [|c x IH]; [reflexivity|]. simpl.
  destruct (Ascii.eqb c a); [exact IH | simpl; now rewrite IH].
Qed.

Lemma remove_all_absent (a : ascii) (s : string) :
  has_char a s = false -> remove_all a s = s.
Proof.
  induction s as [|c s IH]; [reflexivity|]. rewrite has_char_cons.
  intros H. apply orb_false_iff in H. destruct H as [Hc Hs].
  simpl. now rewrite Hc, (IH Hs).
Qed.

Lemma has_char_remove_all (a : ascii) (s : string) :
  has_char a (remove_all a s) = false.
Proof.
  induction s as [|c s IH]; [reflexivity|]. simpl.
  destruct (Ascii.eqb c a) eqn:E; [exact IH|].
  now rewrite has_char_cons, E, IH.
Qed.

(** The decimal text of a number, read back digit by digit. *)
Lemma int_acc_uint (d : Decimal.uint) (acc : positive) :
  int_acc (Zpos acc) (NilEmpty.string_of_uint d) =
  Zpos (Pos.of_uint_acc d acc).
Proof.
  revert acc. induction d; intros acc; cbn [NilEmpty.string_of_uint int_acc];
    [reflexivity | ..];
    match goal with
    | |- int_acc ?v _ = Zpos (Pos.of_uint_acc _ _) =>
        cbn [Pos.of_uint_acc];
        match goal with
        | |- _ = Zpos (Pos.of_uint_acc _ ?a) =>
            replace v with (Zpos a)
              by (match goal with
                  | |- context [digit_value ?c] =>
                      let k := eval vm_compute in (digit_value c) in
                      change (digit_value c) with k
                  end; lia)
        end
    end; apply IHd.
Qed.

Lemma int_uint (d : Decimal.uint) :
  int (NilEmpty.string_of_uint d) = Z.of_uint d.
Proof.
  unfold int, Z.of_uint.
  induction d; cbn [NilEmpty.string_of_uint int_acc Pos.of_uint];
    [reflexivity | exact IHd | ..];
    match goal with
    | |- int_acc ?v _ = Z.of_N (Npos (Pos.of_uint_acc _ ?a)) =>
        replace v with (Zpos a) by reflexivity
    end; apply int_acc_uint.
Qed.

Lemma digit_groups_uint (d : Decimal.uint) (b : bool) :
  d <> Decimal.Nil \/ b = true ->
  digit_groups b (NilEmpty.string_of_uint d) =
  Some (NilEmpty.string_of_uint d).
Proof.
  revert b. induction d; intros b Hb;
    cbn [NilEmpty.string_of_uint digit_groups];
    [destruct Hb as [Hb | ->]; [congruence | reflexivity] | ..];
    match goal with
    | |- context [isdecimal ?c] =>
        change (isdecimal c) with true; cbv iota
    end; rewrite IHd by (right; reflexivity); reflexivity.
Qed.

Lemma rstrip_nonspace (s : string) :
  all_chars nonspace s = true -> rstrip s = s.
Proof.
  unfold nonspace. induction s as [|c s IH]; [reflexivity|]. simpl.
  intros H. apply andb_true_iff in H. destruct H as [Hc Hs].
  rewrite (IH Hs). apply negb_true_iff in Hc. rewrite Hc. now destruct s.
Qed.

Lemma strip_nonspace (s : string) :
  all_chars nonspace s = true -> strip s = s.
Proof.
  intros H. unfold strip.
  assert (E : lstrip s = s).
  { destruct s as [|c s]; [reflexivity|]. simpl in *. unfold nonspace in H.
    apply andb_true_iff in H. destruct H as [Hc _].
    apply negb_true_iff in Hc. now rewrite Hc. }
  rewrite E. now apply rstrip_nonspace.
Qed.

Lemma uint_nonspace (d : Decimal.uint) :
  all_chars nonspace (NilEmpty.string_of_uint d) = true.
Proof. induction d; simpl; auto. Qed.

Lemma uint_first_digit (d : Decimal.uint) :
  d <> Decimal.Nil ->
  exists c r, NilEmpty.string_of_uint d = String c r /\
              Ascii.eqb c "-" = false /\ Ascii.eqb c "+" = false.
Proof.
  destruct d; [congruence | ..]; intros _; simpl; eauto.
Qed.

Lemma to_int_shape (n : Z) :
  (exists d, Z.to_int n = Decimal.Pos d /\ d <> Decimal.Nil) \/
  (exists d, Z.to_int n = Decimal.Neg d /\ d <> Decimal.Nil).
Proof.
  pose proof (DecimalZ.of_to n) as H.
  destruct (Z.to_int n) as [d|d] eqn:E.
  - left. exists d. split; [reflexivity|]. intros ->.
    simpl in H. subst n. discriminate E.
  - right. exists d. split; [reflexivity|]. intros ->.
    simpl in H. subst n. discriminate E.
Qed.

(** [int] skips nothing in a text without white space. *)
Lemma int_strip_nonspace (s : string) :
  all_chars nonspace s = true -> int_rstrip (int_lstrip s) = s.
Proof.
  intros H.
  assert (K : all_chars (fun c => negb (int_isspace c)) s = true).
  { apply (IntFacts.all_chars_weaken nonspace); [|exact H].
    unfold nonspace. intros c Hc. apply negb_true_iff in Hc.
    destruct (int_isspace c) eqn:Hi; [|reflexivity].
    apply IntFacts.int_isspace_isspace in Hi. congruence. }
  now rewrite (IntFacts.int_lstrip_kept s K), (IntFacts.int_rstrip_kept s K).
Qed.

(** [int] reads back what [str] prints, or stops at the limit of digits;
    it reads it back up to 640 characters. *)
Lemma int_str_of_int_cases (limit : nat) (n : Z) :
  int_str limit (str_of_int n) = IntOk n \/
  (int_str limit (str_of_int n) = DigitLimit /\
   (640 < String.length (str_of_int n))%nat).
Proof.
  unfold str_of_int. pose proof (DecimalZ.of_to n) as Hof.
  destruct (to_int_shape n) as [(d & E & Hd) | (d & E & Hd)];
    rewrite E in *; cbn [NilEmpty.string_of_int Z.of_int] in *.
  - unfold int_str. rewrite (int_strip_nonspace _ (uint_nonspace d)).
    destruct (uint_first_digit d Hd) as (c & r & Hs & Hm & Hp).
    rewrite Hs, Hm, Hp, <- Hs.
    rewrite (digit_groups_uint d false (or_introl Hd)).
    destruct (Nat.ltb_spec 640 (String.length (NilEmpty.string_of_uint d)));
      cbn [andb].
    + destruct ((0 <? limit)%nat
                && (limit <? String.length (NilEmpty.string_of_uint d))%nat);
        [right; now split | left]. now rewrite int_uint, Hof.
    + left. now rewrite int_uint, Hof.
  - unfold int_str.
    assert (Hns : all_chars nonspace
                    (String "-" (NilEmpty.string_of_uint d)) = true)
      by (simpl; apply uint_nonspace).
    rewrite (int_strip_nonspace _ Hns). cbn [Ascii.eqb Bool.eqb].
    change (Ascii.eqb "-" "-") with true. cbv iota.
    rewrite (digit_groups_uint d false (or_introl Hd)).
    destruct (Nat.ltb_spec 640 (String.length (NilEmpty.string_of_uint d)));
      cbn [andb].
    + destruct ((0 <? limit)%nat
                && (limit <? String.length (NilEmpty.string_of_uint d))%nat);
        [right; split; [reflexivity | simpl; lia] | left].
      now rewrite int_uint, Hof.
    + left. now rewrite int_uint, Hof.
Qed.

Lemma int_str_of_int (limit : nat) (n : Z) :
  (String.length (str_of_int n) <= 640)%nat ->
  int_str limit (str_of_int n) = IntOk n.
Proof.
  intros H. destruct (int_str_of_int_cases limit n) as [E | [_ K]];
    [exact E | lia].
Qed.

Lemma str_of_int_nonspace (n : Z) :
  all_chars nonspace (str_of_int n) = true.
Proof.
  unfold str_of_int. destruct (Z.to_int n); simpl; apply uint_nonspace.
Qed.

(** A character that is neither a digit nor an underscore spoils the digit
    groups. *)
Lemma digit_groups_bad (c : ascii) (s : string) (b : bool) :
  has_char c s = true -> isdecimal c = false -> Ascii.eqb c "_" = false ->
  digit_groups b s = None.
Proof.
  intros Hin Hd Hu. revert b. induction s as [|x s IH]; intros b;
    [discriminate|].
  rewrite has_char_cons in Hin. cbn [digit_groups].
  destruct (Ascii.eqb_spec x c) as [->|Hx].
  - now rewrite Hd, Hu.
  - simpl in Hin. destruct (isdecimal x).
    + now rewrite (IH Hin).
    + destruct (Ascii.eqb x "_" && b); [apply (IH Hin) | reflexivity].
Qed.

Lemma lstrip_head (s : string) :
  lstrip s = "" \/
  exists c r, lstrip s = String c r /\ isspace c = false.
Proof.
  induction s as [|c s IH]; [now left|]. simpl.
  destruct (isspace c) eqn:Hc; [exact IH|]. right. now exists c, s.
Qed.

Lemma rstrip_idem (s : string) : rstrip (rstrip s) = rstrip s.
Proof.
  induction s as [|c s IH]; [reflexivity|].
  destruct (string_dec (rstrip s) "") as [E|E].
  - rewrite (rstrip_cons_e c s E). destruct (isspace c) eqn:Hc;
      [reflexivity|]. unfold chr. simpl. now rewrite Hc.
  - rewrite (rstrip_cons_ne c s E). rewrite rstrip_cons_ne; rewrite IH;
      [reflexivity | exact E].
Qed.

(** [strip] changes nothing in a stripped text. *)
Lemma strip_idem (s : string) : strip (strip s) = strip s.
Proof.
  unfold strip. destruct (lstrip_head s) as [E | (c & r & E & Hc)].
  - rewrite E. reflexivity.
  - rewrite E, (rstrip_cons_nonspace c r Hc). simpl lstrip. rewrite Hc.
    rewrite (rstrip_cons_nonspace c _ Hc). now rewrite rstrip_idem.
Qed.

(** [int] skips nothing in a stripped text: its white space is white space
    for [strip]. *)
Lemma int_rstrip_fixed (t : string) : rstrip t = t -> int_rstrip t = t.
Proof.
  induction t as [|c t IH]; [reflexivity|].
  destruct (string_dec (rstrip t) "") as [E|E].
  - rewrite (rstrip_cons_e c t E). destruct (isspace c) eqn:Hc;
      [discriminate|]. unfold chr. intros H. injection H as <-.
    cbn [int_rstrip]. destruct (int_isspace c) eqn:Hi; [|reflexivity].
    apply IntFacts.int_isspace_isspace in Hi. congruence.
  - rewrite (rstrip_cons_ne c t E). intros H. injection H as H.
    cbn [int_rstrip]. rewrite (IH H). rewrite H in E.
    destruct t; [congruence | reflexivity].
Qed.

Lemma int_strip_strip (s : string) :
  int_rstrip (int_lstrip (strip s)) = strip s.
Proof.
  assert (L : int_lstrip (strip s) = strip s).
  { unfold strip. destruct (lstrip_head s) as [E | (c & r & E & Hc)].
    - now rewrite E.
    - rewrite E, (rstrip_cons_nonspace c r Hc). cbn [int_lstrip].
      destruct (int_isspace c) eqn:Hi; [|reflexivity].
      apply IntFacts.int_isspace_isspace in Hi. congruence. }
  rewrite L. apply int_rstrip_fixed. unfold strip. apply rstrip_idem.
Qed.

(** [strip] keeps every character that is not white space. *)
Lemma has_char_strip (c : ascii) (s : string) :
  isspace c = false -> has_char c (strip s) = has_char c s.
Proof.
  intros Hc. unfold strip.
  assert (Hl : has_char c (lstrip s) = has_char c s).
  { induction s as [|x s IH]; [reflexivity|]. simpl.
    destruct (isspace x) eqn:Hx; [|reflexivity].
    rewrite has_char_cons, IH.
    destruct (Ascii.eqb_spec x c); [congruence | reflexivity]. }
  rewrite <- Hl. generalize (lstrip s). clear Hl s. intros s.
  induction s as [|x s IH]; [reflexivity|].
  destruct (string_dec (rstrip s) "") as [E|E].
  - rewrite (rstrip_cons_e x s E), has_char_cons.
    apply rstrip_allws in E. rewrite (allws_has_char c s Hc E), orb_false_r.
    destruct (isspace x) eqn:Hx.
    + destruct (Ascii.eqb_spec x c); [congruence | reflexivity].
    + unfold chr. now rewrite has_char_cons, orb_false_r.
  - now rewrite (rstrip_cons_ne x s E), !has_char_cons, IH.
Qed.

End QueryFacts.

Import QueryFacts JoinFacts StatFacts CommitFacts StatusFacts.

(** X4. [get_last_activity] never raises on a date it cannot read: blank
    output gives [None] without the date parser being asked, and otherwise
    the answer is what the parser makes of a text without any space, [None]
    included.  When the stripped output is a date, a time and a zone
    separated by single spaces, that text is the date, [T], the time and the
    zone. *)
Theorem last_activity_text (datetime : Type)
  (fromisoformat : string -> option datetime) (run : subprocess)
  (out : string) :
  _run_git run ["log"; "-1"; "--format=%ai"] = Ok out ->
  (allws out = true ->
   get_last_activity datetime fromisoformat run = Ok None) /\
  (allws out = false ->
   exists text,
     get_last_activity datetime fromisoformat run =
       Ok (fromisoformat text) /\
     has_char space text = false /\
     forall d t z,
       strip out = d ++ " " ++ t ++ " " ++ z ->
       has_char space d = false -> has_char space t = false ->
       has_char space z = false ->
       text = d ++ "T" ++ t ++ z).
Proof.
  intros Hrun. unfold get_last_activity. rewrite Hrun. cbn [bind]. split.
  - intros Hws. apply strip_empty in Hws. now rewrite Hws.
  - intros Hws.
    destruct (truthy (strip out)) eqn:E.
    2: { apply truthy_false, strip_empty in E. congruence. }
    cbn [negb]. eexists. split; [reflexivity|]. split.
    + apply has_char_remove_all.
    + intros d t z Hs Hd Ht Hz. rewrite Hs.
      change (d ++ " " ++ t ++ " " ++ z)
        with (d ++ String space (t ++ " " ++ z)).
      rewrite (replace_first_app space "T" d _ Hd).
      change (d ++ String "T" (t ++ " " ++ z))
        with (d ++ "T" ++ t ++ " " ++ z).
      rewrite !remove_all_app.
      rewrite (remove_all_absent space d Hd), (remove_all_absent space t Ht),
        (remove_all_absent space z Hz).
      reflexivity.
Qed.

(** The output of [git log -1 --format=%ai] for one commit, and a date
    parser that knows no date. *)
Lemma last_activity_text_witness :
  get_last_activity nat (fun _ => None)
    (git_prints "" ("2024-05-01 09:00:00 +0200" ++ chr nl)) = Ok None /\
  get_last_activity string (fun text => Some text)
    (git_prints "" ("2024-05-01 09:00:00 +0200" ++ chr nl)) =
  Ok (Some "2024-05-01T09:00:00+0200").
Proof.
  split.
  - destruct (proj2 (last_activity_text nat (fun _ => None)
                       (git_prints "" ("2024-05-01 09:00:00 +0200" ++ chr nl))
                       _ eq_refl) eq_refl) as (text & H & _).
    exact H.
  - destruct (proj2 (last_activity_text string (fun text => Some text)
                       (git_prints "" ("2024-05-01 09:00:00 +0200" ++ chr nl))
                       _ eq_refl) eq_refl) as (text & H & _ & Ht).
    rewrite H.
    now rewrite (Ht "2024-05-01" "09:00:00" "+0200" eq_refl eq_refl eq_refl
                   eq_refl).
Defined.

(** X5. [get_commit_count] returns 0 on blank output, without converting
    anything; it returns [n] when git prints the decimal text of [n] (of at
    most 640 characters) and a line feed; and it raises [ValueError] when
    the output holds a character that is neither white space, a digit, a
    sign nor an underscore, such as a warning. *)
Theorem commit_count_reads_decimal (max_str_digits : nat)
  (run : subprocess) (days : Z) (out : string) :
  _run_git run ["rev-list"; "--count";
                "--since=" ++ str_of_int days ++ " days ago"; "HEAD"]
    = Ok out ->
  (allws out = true -> get_commit_count max_str_digits run days = Ok 0%Z) /\
  (forall n, out = str_of_int n ++ chr nl ->
             (String.length (str_of_int n) <= 640)%nat ->
             get_commit_count max_str_digits run days = Ok n) /\
  (forall c, has_char c out = true -> isspace c = false ->
             isdecimal c = false -> Ascii.eqb c "_" = false ->
             Ascii.eqb c "-" = false -> Ascii.eqb c "+" = false ->
             get_commit_count max_str_digits run days = Raise int_error).
Proof.
  intros Hrun. unfold get_commit_count. rewrite Hrun. cbn [bind].
  split; [|split].
  - intros Hws. apply strip_empty in Hws. now rewrite Hws.
  - intros n -> Hlen.
    pose proof (int_str_of_int max_str_digits n Hlen) as H.
    rewrite (strip_app_allws (str_of_int n) (chr nl) eq_refl).
    rewrite (strip_nonspace _ (str_of_int_nonspace n)). unfold int_of.
    rewrite H.
    destruct (str_of_int n); [discriminate H | reflexivity].
  - intros c Hin Hsp Hd Hu Hm Hp.
    rewrite <- (has_char_strip c out Hsp) in Hin.
    unfold int_of, int_str. rewrite int_strip_strip.
    destruct (strip out) as [|x r]; [discriminate|]. cbn [truthy].
    assert (Hr : Ascii.eqb x c = false -> has_char c r = true).
    { intros Hx. now rewrite has_char_cons, Hx in Hin. }
    destruct (Ascii.eqb_spec x "-") as [->|Hxm].
    + rewrite Ascii.eqb_sym in Hm.
      now rewrite (digit_groups_bad c r false (Hr Hm) Hd Hu).
    + destruct (Ascii.eqb_spec x "+") as [->|Hxp].
      * rewrite Ascii.eqb_sym in Hp.
        now rewrite (digit_groups_bad c r false (Hr Hp) Hd Hu).
      * now rewrite (digit_groups_bad c (String x r) false Hin Hd Hu).
Qed.

(** Git prints [12] for twelve commits, and a warning another time. *)
Lemma commit_count_reads_decimal_witness :
  get_commit_count 4300 (git_prints "" ("12" ++ chr nl)) 7 = Ok 12%Z /\
  get_commit_count 4300 (git_prints "" ("warning: x" ++ chr nl)) 7 =
    Raise int_error.
Proof.
  split.
  - apply (proj1 (proj2 (commit_count_reads_decimal 4300
                           (git_prints "" ("12" ++ chr nl)) 7 _ eq_refl))
             12%Z); [reflexivity | simpl; lia].
  - apply (proj2 (proj2 (commit_count_reads_decimal 4300
                           (git_prints "" ("warning: x" ++ chr nl)) 7 _
                           eq_refl)) "w"%char); reflexivity.
Defined.

(** * The client *)

Module ClientFacts.
Import Py PyList Analyzer PyFacts JoinFacts StatFacts CommitFacts RunFacts Spec.

(** Joining the pieces of a split gives the text back. *)
Lemma join_split (c : ascii) (s : string) : join (chr c) (split c s) = s.
Proof.
  unfold join. induction s as [|d s IH]; [reflexivity|].
  rewrite split_cons. destruct (split c s) as [|h t] eqn:E;
    [now apply split_not_nil in E|].
  destruct (Ascii.eqb_spec d c) as [->|Hd].
  - change (String.concat (chr c) ("" :: h :: t))
      with ("" ++ chr c ++ String.concat (chr c) (h :: t)).
    now rewrite IH.
  - cbn [hd tl]. rewrite <- IH. destruct t; reflexivity.
Qed.

Lemma split_app (c : ascii) (a b : string) :
  split c (a ++ String c b) = (split c a ++ split c b)%list.
Proof.
  induction a as [|d a IH].
  - simpl. now rewrite Ascii.eqb_refl.
  - simpl append. rewrite !split_cons, IH.
    destruct (Ascii.eqb d c); [reflexivity|].
    destruct (split c a) as [|h t] eqn:E; [now apply split_not_nil in E|].
    reflexivity.
Qed.

Lemma slice_inner {A : Type} (x y : A) (l : list A) :
  slice (Some 1%Z) (Some (-1)%Z) (x :: l ++ [y]) = l.
Proof.
  unfold slice, index_of. cbn [List.length Z.ltb Z.compare].
  rewrite length_app. cbn [List.length].
  replace (Nat.min (Z.to_nat 1) (S (List.length l + 1))) with 1%nat by lia.
  replace (Z.to_nat (Z.of_nat (S (List.length l + 1)) + -1) - 1)%nat
    with (List.length l + 0)%nat by lia.
  cbn [skipn]. rewrite firstn_app_2. cbn [firstn]. now rewrite app_nil_r.
Qed.

Lemma prefix_app (p s r : string) :
  prefix p s = true -> prefix p (s ++ r) = true.
Proof.
  intros H. apply prefix_spec in H. destruct H as [q ->].
  apply prefix_spec. exists (q ++ r). now rewrite append_assoc.
Qed.

End ClientFacts.

Import Client ClientFacts Config.

(** X6. When the completion, stripped, starts with a code fence and has
    three lines or more, [suggest_commit_message] drops its first and its
    last line, whatever they hold, and returns the lines between them,
    stripped: a fenced message comes back without its fences, and a message
    whose fence is not closed loses its last line. *)
Theorem fenced_commit_message (_generate : string -> result string)
  (diff stats response first body last : string) :
  _generate (Prompts.commit_message diff stats) = Ok response ->
  strip response = first ++ chr nl ++ body ++ chr nl ++ last ->
  startswith first "```" = true ->
  has_char nl first = false -> has_char nl last = false ->
  suggest_commit_message _generate diff stats = Ok (strip body).
Proof.
  intros Hgen Hs Hfence Hfirst Hlast. unfold suggest_commit_message.
  rewrite Hgen. cbn [bind]. rewrite Hs. unfold startswith in *.
  rewrite (prefix_app _ first _ Hfence).
  change (first ++ chr nl ++ body ++ chr nl ++ last)
    with (first ++ String nl (body ++ String nl last)).
  rewrite !split_app, (split_no_sep nl first Hfirst),
    (split_no_sep nl last Hlast).
  cbn [app]. rewrite slice_inner, join_split.
  cbn [List.length]. rewrite length_app. cbn [List.length].
  assert (Hlen : (1 <= List.length (split nl body))%nat).
  { destruct (split nl body) eqn:E; [now apply split_not_nil in E|].
    simpl. lia. }
  destruct (Nat.ltb_spec 2 (S (List.length (split nl body) + 1)));
    [reflexivity | lia].
Qed.

(** A fenced message, and a message whose fence is never closed. *)
Lemma fenced_commit_message_witness :
  let fenced := "```text" ++ chr nl ++ "feat: add parser" ++ chr nl
                ++ "```" ++ chr nl in
  let open := "```" ++ chr nl ++ "feat: add parser" ++ chr nl
              ++ "Closes #12" in
  suggest_commit_message (fun _ => Ok fenced) "" "" = Ok "feat: add parser" /\
  suggest_commit_message (fun _ => Ok open) "" "" = Ok "feat: add parser".
Proof.
  intros fenced open. split.
  - exact (fenced_commit_message (fun _ => Ok fenced) "" "" fenced "```text"
             "feat: add parser" "```" eq_refl eq_refl eq_refl eq_refl
             eq_refl).
  - exact (fenced_commit_message (fun _ => Ok open) "" "" open "```"
             "feat: add parser" "Closes #12" eq_refl eq_refl eq_refl eq_refl
             eq_refl).
Defined.

(** X7. Whatever the backend completes, the message [suggest_commit_message]
    returns has no white space at either end; it is the stripped completion
    itself unless that starts with a code fence and has more than two lines,
    so a fence on one or two lines stays in the message.  An error of the
    backend is passed on. *)
Theorem commit_message_is_stripped (_generate : string -> result string)
  (diff stats : string) :
  (forall response,
     _generate (Prompts.commit_message diff stats) = Ok response ->
     exists m,
       suggest_commit_message _generate diff stats = Ok m /\
       strip m = m /\
       (startswith (strip response) "```" = false \/
        (List.length (split nl (strip response)) <= 2)%nat ->
        m = strip response)) /\
  (forall e,
     _generate (Prompts.commit_message diff stats) = Raise e ->
     suggest_commit_message _generate diff stats = Raise e).
Proof.
  unfold suggest_commit_message. split.
  - intros response ->. cbn [bind]. eexists. split; [reflexivity|].
    split; [apply strip_idem|].
    intros [H | H].
    + rewrite H. apply strip_idem.
    + destruct (startswith (strip response) "```"); [|apply strip_idem].
      destruct (Nat.ltb_spec 2 (List.length (split nl (strip response))));
        [lia | apply strip_idem].
  - intros e ->. reflexivity.
Qed.

(** A fence opened and closed on one line stays. *)
Lemma commit_message_is_stripped_witness :
  suggest_commit_message (fun _ => Ok (" ```fix: typo``` " ++ chr nl)) "" ""
  = Ok "```fix: typo```".
Proof.
  destruct (proj1 (commit_message_is_stripped
                     (fun _ => Ok (" ```fix: typo``` " ++ chr nl)) "" "")
              (" ```fix: typo``` " ++ chr nl) eq_refl) as (m & Hm & _ & H).
  rewrite Hm. f_equal. apply H. right. simpl. lia.
Defined.

(** X8. A client built without arguments from a configuration that passes
    [validate] is always built: [LLMClient()] succeeds exactly when provider
    selection does, it then holds the selected provider with that
    provider's own, non-empty key, and when it fails the error is the one of
    provider selection, never a missing-key error of the set-up. *)
Theorem default_client (config : Config.Config) :
  (validate config = Ok tt <->
   exists c, __init__ config None None = Ok c) /\
  (forall c, __init__ config None None = Ok c ->
     get_active_provider config = Ok (provider c) /\
     api_key c <> "" /\
     api_key c = match provider c with
                 | GEMINI => gemini_api_key config
                 | OPENROUTER => openrouter_api_key config
                 end) /\
  (forall e, __init__ config None None = Raise e ->
     e = ValueError no_provider_message).
Proof.
  unfold validate, __init__, _setup_gemini, _setup_openrouter, or_else,
    get_active_provider.
  destruct (String.eqb (preferred_provider config) "gemini");
  destruct (String.eqb (preferred_provider config) "openrouter");
  destruct (String.eqb (preferred_provider config) "auto");
  destruct (gemini_api_key config) as [|g gk] eqn:Eg;
  destruct (openrouter_api_key config) as [|o ok] eqn:Eo;
  cbn [truthy andb negb bind];
  (split; [split; [intros H; try discriminate H; eexists; reflexivity
                  | intros [c H]; try discriminate H; reflexivity]
          | split; [intros c H; try discriminate H; injection H as <-;
                    cbn [provider api_key]; repeat split; discriminate
                   | intros e H; try discriminate H; now injection H as <-]]).
Qed.

(** A configuration with the OpenRouter key only, preference [auto]. *)
Lemma default_client_witness :
  let config := {| gemini_api_key := "";
                   openrouter_api_key := "sk-or-v1-0";
                   default_days := 7;
                   max_diff_chars := 8000;
                   gemini_model := "gemini-flash-latest";
                   openrouter_model := "xiaomi/mimo-v2-flash:free";
                   preferred_provider := "auto";
                   slack_webhook_url := "" |} in
  exists c, __init__ config None None = Ok c.
Proof.
  intros config. exact (proj1 (proj1 (default_client config)) eq_refl).
Defined.

(** X9. A client built for a named provider ignores the preference and the
    other provider's key: it fails exactly when neither the key passed in
    nor the configured key of that provider is non-empty, with the
    missing-key error, and otherwise holds the key passed in when that is
    non-empty and the configured one when it is not. *)
Theorem named_provider_client (config : Config.Config)
  (key : option string) (p : LLMProvider) :
  let configured := match p with
                    | GEMINI => gemini_api_key config
                    | OPENROUTER => openrouter_api_key config
                    end in
  ((exists e, __init__ config key (Some p) = Raise e) <->
   or_else key configured = "") /\
  (forall c, __init__ config key (Some p) = Ok c ->
     provider c = p /\ api_key c = or_else key configured /\
     (forall k, key = Some k -> k <> "" -> api_key c = k)).
Proof.
  cbv zeta. unfold __init__, _setup_gemini, _setup_openrouter. cbn [bind].
  assert (Hk : forall configured k,
            key = Some k -> k <> "" -> or_else key configured = k).
  { intros configured k -> Hk. unfold or_else.
    destruct k; [congruence | reflexivity]. }
  destruct p;
    match goal with
    | |- context [or_else key ?k] =>
        pose proof (Hk k) as Hk'; destruct (or_else key k) as [|x r]
    end; cbn [truthy negb]; split.
  all: try (refine (conj _ _);
            [intros [e H]; try discriminate H; reflexivity
            | intros H; try discriminate H; eexists; reflexivity]).
  all: intros c H; try discriminate H; injection H as <-;
    cbn [provider api_key]; refine (conj eq_refl (conj eq_refl _));
    intros k Hs Hne; now apply Hk'.
Qed.

(** Gemini named with no key anywhere, although the OpenRouter key is
    set. *)
Lemma named_provider_client_witness :
  let config := {| gemini_api_key := "";
                   openrouter_api_key := "sk-or-v1-0";
                   default_days := 7;
                   max_diff_chars := 8000;
                   gemini_model := "gemini-flash-latest";
                   openrouter_model := "xiaomi/mimo-v2-flash:free";
                   preferred_provider := "auto";
                   slack_webhook_url := "" |} in
  exists e, __init__ config None (Some GEMINI) = Raise e.
Proof.
  intros config.
  exact (proj2 (proj1 (named_provider_client config None GEMINI)) eq_refl).
Defined.

(** * The Slack sender and the formatter *)

Module ShowFacts.
Import Py PyList Analyzer PyFacts JoinFacts StatFacts CommitFacts DiffFacts
  QueryFacts ClientFacts MoreFacts Spec.

Lemma slice_prefix {A : Type} (n : Z) (l : list A) :
  (0 <= n)%Z -> slice None (Some n) l = firstn (Z.to_nat n) l.
Proof.
  intros Hn. unfold slice, index_of.
  destruct (Z.ltb_spec n 0) as [G | G]; [lia|].
  cbn [skipn]. rewrite Nat.sub_0_r.
  destruct (Nat.le_ge_cases (Z.to_nat n) (List.length l)) as [H | H].
  - now rewrite Nat.min_l.
  - rewrite Nat.min_r by exact H. now rewrite firstn_all, firstn_all2.
Qed.

Lemma Forall_prefix {A : Type} (P : A -> Prop) (n : nat) (l : list A) :
  Forall P l -> Forall P (firstn n l).
Proof.
  revert l. induction n as [|n IH]; intros l H; [constructor|].
  destruct H as [|x l Hx Hl]; [constructor|].
  cbn [firstn]. constructor; [exact Hx | now apply IH].
Qed.

Lemma nonspace_no_nl (s : string) :
  all_chars nonspace s = true -> has_char nl s = false.
Proof.
  unfold nonspace. induction s as [|c s IH]; [reflexivity|]. simpl.
  intros H. apply andb_true_iff in H. destruct H as [Hc Hs].
  rewrite has_char_cons, (IH Hs), orb_false_r.
  destruct (Ascii.eqb_spec c nl) as [->|]; [discriminate Hc | reflexivity].
Qed.

Lemma length_subject_display (s : string) :
  (String.length (Formatter.subject_display s) <= 53)%nat.
Proof.
  unfold Formatter.subject_display.
  destruct (Nat.ltb_spec 50 (String.length s)); [|lia].
  rewrite length_append. pose proof (length_take_le 50 s).
  change (String.length "...") with 3%nat. lia.
Qed.

End ShowFacts.

Import Slack Formatter ShowFacts.

(** X10. For a limit of three or more, the text [_truncate] returns is never
    longer than the limit: it is the text itself when that fits, and
    otherwise its first [max_length - 3] characters followed by three dots,
    [max_length] characters in all. *)
Theorem slack_truncate_fits (text : string) (max_length : Z) :
  (3 <= max_length)%Z ->
  (Z.of_nat (String.length (_truncate text max_length)) <= max_length)%Z /\
  ((Z.of_nat (String.length text) <= max_length)%Z ->
   _truncate text max_length = text) /\
  ((max_length < Z.of_nat (String.length text))%Z ->
   _truncate text max_length =
     substring 0 (Z.to_nat (max_length - 3)) text ++ "..." /\
   Z.of_nat (String.length (_truncate text max_length)) = max_length).
Proof.
  intros Hm. unfold _truncate.
  destruct (Z.leb_spec (Z.of_nat (String.length text)) max_length) as [H | H].
  - split; [exact H | split; [reflexivity | lia]].
  - assert (E : slice_to (max_length - 3) text =
                take (Z.to_nat (max_length - 3)) text).
    { unfold slice_to. destruct (Z.ltb_spec (max_length - 3) 0);
        [lia | reflexivity]. }
    assert (L : String.length (take (Z.to_nat (max_length - 3)) text ++ "...")
                = Z.to_nat max_length).
    { rewrite length_append, length_take by lia.
      change (String.length "...") with 3%nat. lia. }
    rewrite E. split; [lia | split; [lia|]]. intros _.
    split; [now rewrite take_substring | lia].
Qed.

(** Ten characters under a limit of eight. *)
Lemma slack_truncate_fits_witness :
  _truncate "0123456789" 8 = "01234..." /\
  _truncate "01234567" 8 = "01234567".
Proof.
  split.
  - exact (proj1 (proj2 (proj2 (slack_truncate_fits "0123456789" 8
                                  ltac:(lia))) eq_refl)).
  - apply (proj1 (proj2 (slack_truncate_fits "01234567" 8 ltac:(lia)))).
    simpl. lia.
Defined.

(** X11. For a non-negative number of lines [max_lines], the preview of a
    diff that is not blank is the diff itself, unchanged, when it has at
    most [max_lines] lines, and otherwise its first [max_lines] lines
    followed by one line that tells how many lines are left out; a blank
    diff gives no preview. *)
Theorem diff_preview_lines (diff : string) (max_lines : Z) :
  (0 <= max_lines)%Z ->
  let lines := split nl diff in
  (allws diff = true -> print_diff_preview diff max_lines = None) /\
  (allws diff = false ->
   ((Z.of_nat (List.length lines) <= max_lines)%Z ->
    print_diff_preview diff max_lines = Some diff) /\
   ((max_lines < Z.of_nat (List.length lines))%Z ->
    print_diff_preview diff max_lines =
      Some (join (chr nl) (firstn (Z.to_nat max_lines) lines) ++ chr nl
            ++ "... ("
            ++ str_of_int (Z.of_nat (List.length lines) - max_lines)
            ++ " more lines)"))).
Proof.
  intros Hm. cbv zeta. unfold print_diff_preview. split.
  - intros Hws. apply strip_empty in Hws. now rewrite Hws.
  - intros Hws. destruct (truthy (strip diff)) eqn:E.
    2: { apply truthy_false, strip_empty in E. congruence. }
    cbn [negb]. rewrite (slice_prefix max_lines _ Hm). split; intros H.
    + destruct (Z.gtb_spec (Z.of_nat (List.length (split nl diff)))
                  max_lines) as [G | G]; [lia|].
      rewrite firstn_all2 by lia. now rewrite join_split.
    + destruct (Z.gtb_spec (Z.of_nat (List.length (split nl diff)))
                  max_lines) as [G | G]; [reflexivity | lia].
Qed.

(** Three lines under a limit of two, and of three. *)
Lemma diff_preview_lines_witness :
  let diff := "+a" ++ chr nl ++ "-b" ++ chr nl ++ "+c" in
  print_diff_preview diff 2 =
    Some ("+a" ++ chr nl ++ "-b" ++ chr nl ++ "... (1 more lines)") /\
  print_diff_preview diff 3 = Some diff.
Proof.
  intros diff. split.
  - exact (proj2 (proj2 (diff_preview_lines diff 2 ltac:(lia)) eq_refl)
             eq_refl).
  - apply (proj1 (proj2 (diff_preview_lines diff 3 ltac:(lia)) eq_refl)).
    simpl. lia.
Defined.

(** X12. For a change of one file or more, with no line feed in a path, the
    file list of the status prompt has one line for each of the first
    twenty files and, past twenty files, one more line that counts the
    rest: never more than twenty-one lines. *)
Theorem file_list_lines (files : list string) :
  files <> [] ->
  Forall (fun f => has_char nl f = false) files ->
  split nl (Prompts.file_list files) =
    List.app (map (fun f => "  - " ++ f) (firstn 20 files))
      (if (20 <? List.length files)%nat
       then ["  ... and " ++ str_of_int (Z.of_nat (List.length files) - 20)
             ++ " more files"]
       else []) /\
  (List.length (split nl (Prompts.file_list files)) <= 21)%nat.
Proof.
  intros Hne Hnl.
  assert (Hlisted :
    split nl (join (chr nl) (map (fun f => "  - " ++ f) (firstn 20 files))) =
    map (fun f => "  - " ++ f) (firstn 20 files)).
  { apply split_concat.
    - destruct files; [congruence | discriminate].
    - apply Forall_map. apply Forall_prefix.
      eapply Forall_impl; [|exact Hnl]. intros f Hf. cbv beta.
      now rewrite has_char_app, Hf. }
  assert (Hsplit :
    split nl (Prompts.file_list files) =
    List.app (map (fun f => "  - " ++ f) (firstn 20 files))
      (if (20 <? List.length files)%nat
       then ["  ... and " ++ str_of_int (Z.of_nat (List.length files) - 20)
             ++ " more files"]
       else [])).
  { unfold Prompts.file_list.
    rewrite (slice_prefix 20 files ltac:(lia)).
    change (Z.to_nat 20) with 20%nat.
    destruct (20 <? List.length files)%nat.
    - change (?a ++ chr nl ++ ?b) with (a ++ String nl b).
      rewrite split_app, Hlisted. f_equal. apply split_no_sep.
      rewrite !has_char_app.
      now rewrite (nonspace_no_nl _ (str_of_int_nonspace _)).
    - now rewrite Hlisted, app_nil_r. }
  split; [exact Hsplit|]. rewrite Hsplit, length_app, length_map.
  rewrite length_firstn.
  destruct (20 <? List.length files)%nat; cbn [List.length]; lia.
Qed.

(** Two files. *)
Lemma file_list_lines_witness :
  split nl (Prompts.file_list ["src/app.py"; "README.md"]) =
  ["  - src/app.py"; "  - README.md"].
Proof.
  exact (proj1 (file_list_lines ["src/app.py"; "README.md"]
                  ltac:(discriminate)
                  ltac:(repeat constructor))).
Defined.

Module TableFacts.
Import Py PyList Analyzer PyFacts MoreFacts ShowFacts Shown.

Section Rows.
Context {datetime : Type} (strftime : datetime -> string -> string).

Lemma table_row_cells (i : nat) (c : commit_like datetime) :
  table_row strftime i c =
  (str_of_int (Z.of_nat i),
   match date_of c with Some d => strftime d "%m/%d" | None => "N/A" end,
   subject_display (subject_of c), author_of c).
Proof. destruct c as [d s a | d [s|] [a|] | t]; reflexivity. Qed.

Lemma choice_label_cells (c : commit_like datetime) :
  choice_label strftime c =
  "[" ++ match date_of c with Some d => strftime d "%m/%d" | None => "" end
  ++ "] " ++ subject_display (subject_of c).
Proof.
  assert (H : forall t,
    take 50 t ++ (if (50 <? String.length t)%nat then "..." else "") =
    subject_display t).
  { intros t. unfold subject_display.
    destruct (Nat.ltb_spec 50 (String.length t)) as [L | L]; [reflexivity|].
    now rewrite take_whole, append_empty_r by exact L. }
  destruct c as [d s a | d [s|] [a|] | t];
    cbn [choice_label date_of subject_of]; now rewrite H.
Qed.

Lemma length_commit_rows (i : nat) (l : list (commit_like datetime)) :
  List.length (commit_rows strftime i l) = List.length l.
Proof.
  revert i. induction l as [|c l IH]; intros i; [reflexivity|].
  cbn [commit_rows List.length]. now rewrite IH.
Qed.

Lemma commit_rows_at (i k : nat) (l : list (commit_like datetime))
    (c : commit_like datetime) :
  nth_error l k = Some c ->
  nth_error (commit_rows strftime (S i) l) k =
  Some (table_row strftime (i + k + 1) c).
Proof.
  revert i k. induction l as [|d l IH]; intros i [|k] H;
    try discriminate H; cbn [commit_rows nth_error] in *.
  - injection H as ->.
    now replace (i + 0 + 1)%nat with (S i) by lia.
  - rewrite (IH (S i) k H).
    now replace (S i + k + 1)%nat with (i + S k + 1)%nat by lia.
Qed.

Lemma table_rows (commits : list (commit_like datetime)) :
  commits <> [] ->
  print_commits_table strftime commits =
  Some (List.app (commit_rows strftime 1 (firstn 15 commits))
          (if (15 <? List.length commits)%nat
           then [("", "",
                  "[dim]... and "
                  ++ str_of_int (Z.of_nat (List.length commits) - 15)
                  ++ " more[/]", "")]
           else [])).
Proof.
  intros H. unfold print_commits_table.
  destruct commits as [|c l]; [congruence|]. cbn [nonempty negb].
  rewrite (slice_prefix 15 _ ltac:(lia)). change (Z.to_nat 15) with 15%nat.
  destruct (15 <? List.length (c :: l))%nat; [reflexivity|].
  now rewrite app_nil_r.
Qed.

Lemma table_row_at (commits : list (commit_like datetime)) (k : nat)
    (c : commit_like datetime) :
  (k < 15)%nat -> nth_error commits k = Some c ->
  exists rows, print_commits_table strftime commits = Some rows /\
               nth_error rows k = Some (table_row strftime (k + 1) c).
Proof.
  intros Hk Hc.
  assert (Hne : commits <> []) by (intros ->; destruct k; discriminate Hc).
  eexists. split; [exact (table_rows commits Hne)|].
  assert (Hlen : (k < List.length commits)%nat).
  { apply nth_error_Some. congruence. }
  rewrite nth_error_app1.
  - apply (commit_rows_at 0). rewrite nth_error_firstn.
    destruct (Nat.ltb_spec k 15); [exact Hc | lia].
  - rewrite length_commit_rows, length_firstn. lia.
Qed.

End Rows.

End TableFacts.

Import TableFacts Shown.

Section ShownCommits.
Context {datetime : Type} (strftime : datetime -> string -> string).

(** X13. For a list of one commit or more, the table has one row for each
    of the first fifteen commits, in order and numbered from one, and past
    fifteen commits one more row, whose message cell is
    [[dim]... and N more[/]] for the [N] commits left out and whose other
    cells are empty: never more than sixteen rows.  The row of a commit
    holds its number, its date as [%m/%d] or [N/A] when it has none, its
    message and its author; the message is the subject when that has at
    most fifty characters, and its first fifty characters followed by three
    dots otherwise. *)
Theorem commits_table_rows (commits : list (commit_like datetime)) :
  commits <> [] ->
  exists rows,
    print_commits_table strftime commits = Some rows /\
    List.length rows =
      (Nat.min 15 (List.length commits) +
       (if (15 <? List.length commits)%nat then 1 else 0))%nat /\
    (List.length rows <= 16)%nat /\
    (forall (k : nat) (c : commit_like datetime),
       (k < 15)%nat -> nth_error commits k = Some c ->
       exists message,
         nth_error rows k =
           Some (str_of_int (Z.of_nat (k + 1)),
                 match date_of c with
                 | Some d => strftime d "%m/%d"
                 | None => "N/A"
                 end,
                 message, author_of c) /\
         (String.length message <= 53)%nat /\
         ((String.length (subject_of c) <= 50)%nat ->
          message = subject_of c) /\
         ((50 < String.length (subject_of c))%nat ->
          message = substring 0 50 (subject_of c) ++ "...")) /\
    ((15 < List.length commits)%nat ->
     nth_error rows 15 =
       Some ("", "",
             "[dim]... and "
             ++ str_of_int (Z.of_nat (List.length commits) - 15)
             ++ " more[/]", "")).
Proof.
  intros Hne. eexists. split; [exact (table_rows strftime commits Hne)|].
  assert (Hlen : forall more : list (string * string * string * string),
    List.length
      (List.app (commit_rows strftime 1 (firstn 15 commits)) more) =
    (Nat.min 15 (List.length commits) + List.length more)%nat).
  { intros more. now rewrite length_app, length_commit_rows, length_firstn. }
  split; [|split; [|split]].
  - rewrite Hlen. now destruct (15 <? List.length commits)%nat.
  - rewrite Hlen. destruct (15 <? List.length commits)%nat;
      cbn [List.length]; lia.
  - intros k c Hk Hc. exists (subject_display (subject_of c)).
    split; [|split; [apply length_subject_display|]].
    + destruct (table_row_at strftime commits k c Hk Hc) as (rows & E & R).
      rewrite (table_rows strftime commits Hne) in E. injection E as <-.
      now rewrite <- table_row_cells.
    + unfold subject_display.
      destruct (Nat.ltb_spec 50 (String.length (subject_of c))); split;
        intros; try lia; try reflexivity.
      now rewrite take_substring.
  - intros Hmore.
    destruct (Nat.ltb_spec 15 (List.length commits)) as [_|]; [|lia].
    rewrite nth_error_app2;
      rewrite length_commit_rows, length_firstn, Nat.min_l by lia;
      [|lia]. now rewrite Nat.sub_diag.
Qed.

(** X14. [select_commits] offers as many choices as there are commits.  For
    each of the first fifteen commits, the label of its choice ends with
    the message cell of the commit's row in the table of
    [print_commits_table], and starts with the date cell of that row in
    square brackets when the commit has a date; for a commit without a date
    the table shows [N/A] and the label shows empty brackets. *)
Theorem labels_match_table (commits : list (commit_like datetime))
    (k : nat) (c : commit_like datetime) :
  (k < 15)%nat -> nth_error commits k = Some c ->
  List.length (select_commits_labels strftime commits) =
    List.length commits /\
  exists rows number day message author,
    print_commits_table strftime commits = Some rows /\
    nth_error rows k = Some (number, day, message, author) /\
    nth_error (select_commits_labels strftime commits) k =
      Some ("[" ++ match date_of c with Some _ => day | None => "" end
            ++ "] " ++ message) /\
    (date_of c = None -> day = "N/A").
Proof.
  intros Hk Hc. unfold select_commits_labels. split; [apply length_map|].
  destruct (table_row_at strftime commits k c Hk Hc) as (rows & E & R).
  rewrite table_row_cells in R.
  exists rows. do 4 eexists. split; [exact E | split; [exact R|]].
  rewrite nth_error_map, Hc. cbn [option_map]. rewrite choice_label_cells.
  now destruct (date_of c).
Qed.

End ShownCommits.

(** One commit dated the seventh of March, with a calendar that prints the
    date as it is stored. *)
Lemma commits_table_rows_witness :
  let c := {| hash := "a1b2c3d"; author := "Ann"; email := "ann@example.org";
              date := "03/07"; subject := "Fix parser"; body := "";
              files_changed := 1%Z; insertions := 2%Z; deletions := 0%Z |} in
  exists rows,
    print_commits_table (fun d _ => d) [of_commit c] = Some rows /\
    List.length rows = 1%nat /\
    nth_error rows 0 = Some ("1", "03/07", "Fix parser", "Ann").
Proof.
  intros c.
  destruct (commits_table_rows (fun d _ => d) [of_commit c]
              ltac:(discriminate))
    as (rows & E & L & _ & R & _).
  exists rows. split; [exact E | split; [exact L|]].
  destruct (R 0%nat (of_commit c) ltac:(lia) eq_refl)
    as (m & Rm & _ & Hm & _).
  rewrite Rm, (Hm ltac:(simpl; lia)). reflexivity.
Defined.

(** The same commit, and a dictionary without a date, among the choices. *)
Lemma labels_match_table_witness :
  let c := {| hash := "a1b2c3d"; author := "Ann"; email := "ann@example.org";
              date := "03/07"; subject := "Fix parser"; body := "";
              files_changed := 1%Z; insertions := 2%Z; deletions := 0%Z |} in
  let commits := [of_commit c; Dict None (Some "Add tests") None] in
  nth_error (select_commits_labels (fun d _ => d) commits) 0 =
    Some "[03/07] Fix parser" /\
  nth_error (select_commits_labels (fun d _ => d) commits) 1 =
    Some "[] Add tests" /\
  exists rows,
    print_commits_table (fun d _ => d) commits = Some rows /\
    nth_error rows 1 = Some ("2", "N/A", "Add tests", "unknown").
Proof.
  intros c commits.
  destruct (labels_match_table (fun d _ => d) commits 0 (of_commit c)
              ltac:(lia) eq_refl)
    as (_ & rows0 & n0 & d0 & m0 & a0 & E0 & R0 & L0 & _).
  destruct (labels_match_table (fun d _ => d) commits 1
              (Dict None (Some "Add tests") None) ltac:(lia) eq_refl)
    as (_ & rows & n1 & d1 & m1 & a1 & E1 & R1 & L1 & N1).
  assert (K0 : rows0 = commit_rows (fun d _ => d) 1 commits).
  { vm_compute in E0. injection E0 as <-. reflexivity. }
  assert (K1 : rows = commit_rows (fun d _ => d) 1 commits).
  { vm_compute in E1. injection E1 as <-. reflexivity. }
  subst rows0 rows. vm_compute in R0, R1.
  injection R0 as <- <- <- <-. injection R1 as <- <- <- <-.
  split; [exact L0 | split; [exact L1|]].
  exists (commit_rows (fun d _ => d) 1 commits). split; reflexivity.
Defined.

(** * The number of days *)

Module DayFacts.
Import Py PyList Analyzer PyFacts JoinFacts QueryFacts.

Lemma short_days (n : Z) :
  (1 <= n <= 365)%Z -> (String.length (str_of_int n) <= 3)%nat.
Proof.
  intros H.
  assert (A : forallb (fun k => (String.length (str_of_int (Z.of_nat k))
                                 <=? 3)%nat) (seq 1 365) = true)
    by (vm_compute; reflexivity).
  rewrite forallb_forall in A. specialize (A (Z.to_nat n)).
  rewrite Z2Nat.id in A by lia. apply Nat.leb_le, A, in_seq. lia.
Qed.

(** The white space [int] skips at the two ends. *)
Lemma int_lstrip_allws (w : string) :
  all_chars int_isspace w = true -> int_lstrip w = "".
Proof.
  induction w as [|c w IH]; [reflexivity|]. cbn [all_chars int_lstrip].
  intros H. apply andb_true_iff in H. destruct H as [-> Hw]. exact (IH Hw).
Qed.

Lemma int_rstrip_allws (w : string) :
  all_chars int_isspace w = true -> int_rstrip w = "".
Proof.
  induction w as [|c w IH]; [reflexivity|]. cbn [all_chars int_rstrip].
  intros H. apply andb_true_iff in H. destruct H as [Hc Hw].
  now rewrite (IH Hw), Hc.
Qed.

Lemma int_rstrip_app_ws (s w : string) :
  all_chars int_isspace w = true -> int_rstrip (s ++ w) = int_rstrip s.
Proof.
  intros Hw. induction s as [|c s IH].
  - now apply int_rstrip_allws.
  - cbn [append int_rstrip]. now rewrite IH.
Qed.

Lemma int_strip_padded (l val r : string) :
  all_chars int_isspace l = true -> all_chars int_isspace r = true ->
  int_rstrip (int_lstrip (l ++ val ++ r)) = int_rstrip (int_lstrip val).
Proof.
  intros Hl Hr. induction l as [|c l IH].
  - cbn [append]. induction val as [|d val IHv].
    + cbn [append]. now rewrite (int_lstrip_allws r Hr).
    + cbn [append int_lstrip]. destruct (int_isspace d); [exact IHv|].
      exact (int_rstrip_app_ws (String d val) r Hr).
  - cbn [all_chars] in Hl. apply andb_true_iff in Hl.
    destruct Hl as [Hc Hl]. cbn [append int_lstrip]. rewrite Hc.
    exact (IH Hl).
Qed.

(** [int] keeps every character that is not white space for it. *)
Lemma has_char_int_strip (c : ascii) (s : string) :
  int_isspace c = false ->
  has_char c (int_rstrip (int_lstrip s)) = has_char c s.
Proof.
  intros Hc.
  assert (Hl : has_char c (int_lstrip s) = has_char c s).
  { induction s as [|x s IH]; [reflexivity|]. cbn [int_lstrip].
    destruct (int_isspace x) eqn:Hx; [|reflexivity].
    rewrite has_char_cons, IH.
    destruct (Ascii.eqb_spec x c); [congruence | reflexivity]. }
  rewrite <- Hl. generalize (int_lstrip s). clear Hl s. intros s.
  induction s as [|x s IH]; [reflexivity|]. cbn [int_rstrip].
  rewrite has_char_cons, <- IH.
  destruct (int_rstrip s) as [|y r] eqn:E.
  - destruct (int_isspace x) eqn:Hx.
    + destruct (Ascii.eqb_spec x c); [congruence | reflexivity].
    + unfold chr. now rewrite has_char_cons.
  - now rewrite has_char_cons.
Qed.

(** A character that is neither white space for [int], nor a digit, a sign
    or an underscore makes the text an invalid literal. *)
Lemma int_str_foreign (limit : nat) (c : ascii) (s : string) :
  has_char c s = true -> int_isspace c = false -> isdecimal c = false ->
  Ascii.eqb c "_" = false -> Ascii.eqb c "-" = false ->
  Ascii.eqb c "+" = false ->
  int_str limit s = InvalidLiteral.
Proof.
  intros Hin Hsp Hd Hu Hm Hp.
  rewrite <- (has_char_int_strip c s Hsp) in Hin. unfold int_str.
  destruct (int_rstrip (int_lstrip s)) as [|x r]; [discriminate|].
  assert (Hr : Ascii.eqb x c = false -> has_char c r = true).
  { intros Hx. now rewrite has_char_cons, Hx in Hin. }
  destruct (Ascii.eqb_spec x "-") as [->|Hxm].
  - rewrite Ascii.eqb_sym in Hm.
    now rewrite (digit_groups_bad c r false (Hr Hm) Hd Hu).
  - destruct (Ascii.eqb_spec x "+") as [->|Hxp].
    + rewrite Ascii.eqb_sym in Hp.
      now rewrite (digit_groups_bad c r false (Hr Hp) Hd Hu).
    + now rewrite (digit_groups_bad c (String x r) false Hin Hd Hu).
Qed.

(** The separators FS..US: white space that [int] does not skip. *)
Lemma separator_foreign (c : ascii) :
  isspace c = true -> int_isspace c = false ->
  isdecimal c = false /\ Ascii.eqb c "_" = false /\
  Ascii.eqb c "-" = false /\ Ascii.eqb c "+" = false.
Proof.
  destruct c as [[] [] [] [] [] [] [] []]; vm_compute; intros H K;
    try discriminate H; try discriminate K; repeat split.
Qed.

End DayFacts.

Import Choices DayFacts.

(** X15. The check on the number of days typed at the prompt accepts the
    decimal text of [n] exactly when [n] is between 1 and 365.  The white
    space that [int] skips around the text changes nothing, but a text that
    holds one of the separators FS..US, which [str.strip] would remove, is
    rejected.  A text the check accepts is then converted without an error,
    to a number between 1 and 365, which [select_days] returns. *)
Theorem days_validation (max_str_digits : nat) :
  (forall n : Z,
     validate_days max_str_digits (str_of_int n) = true <->
     (1 <= n <= 365)%Z) /\
  (forall l val r : string,
     all_chars int_isspace l = true -> all_chars int_isspace r = true ->
     validate_days max_str_digits (l ++ val ++ r) =
     validate_days max_str_digits val) /\
  (forall (c : ascii) (val : string),
     has_char c val = true -> isspace c = true -> int_isspace c = false ->
     validate_days max_str_digits val = false) /\
  (forall val : string,
     validate_days max_str_digits val = true ->
     exists n : Z, select_days max_str_digits (-1) val = Ok n /\
                   (1 <= n <= 365)%Z).
Proof.
  split; [|split; [|split]].
  - intros n. unfold validate_days, int_of.
    destruct (int_str_of_int_cases max_str_digits n) as [E | [E L]];
      rewrite E.
    + rewrite andb_true_iff, Z.leb_le, Z.leb_le. reflexivity.
    + split; [discriminate|]. intros H.
      pose proof (short_days n H). lia.
  - intros l val r Hl Hr. unfold validate_days, int_of, int_str.
    now rewrite (int_strip_padded l val r Hl Hr).
  - intros c val Hin Hs Hi. unfold validate_days, int_of.
    destruct (separator_foreign c Hs Hi) as (Hd & Hu & Hm & Hp).
    now rewrite (int_str_foreign max_str_digits c val Hin Hi Hd Hu Hm Hp).
  - intros val. unfold validate_days, select_days.
    change (-1 =? -1)%Z with true. cbv iota.
    destruct (int_of max_str_digits val) as [n|]; [|discriminate].
    rewrite andb_true_iff, Z.leb_le, Z.leb_le. intros H.
    exists n. split; [reflexivity | exact H].
Qed.

(** Thirty days typed between two spaces, and after the separator FS. *)
Lemma days_validation_witness :
  validate_days 4300 " 30 " = true /\
  validate_days 4300 (String "028" "30") = false /\
  select_days 4300 (-1) "30" = Ok 30%Z.
Proof.
  destruct (days_validation 4300) as (A & B & C & D).
  split; [|split].
  - change (validate_days 4300 " 30 ")
      with (validate_days 4300 (" " ++ "30" ++ " ")).
    rewrite (B " " "30" " " eq_refl eq_refl).
    apply (proj2 (A 30%Z)). lia.
  - exact (C "028"%char (String "028" "30") eq_refl eq_refl eq_refl).
  - destruct (D "30" (proj2 (A 30%Z) ltac:(lia))) as (n & E & _).
    vm_compute in E. injection E as <-. reflexivity.
Defined.
